(** * Scythe: rankings scraper and Supabase uploader

    A shallow embedding of [scraper.py] and [upload_teams_to_supabase.py].
    Python values are an inductive type, effects are explicit state passing
    over a world of external oracles (HTTP server, clock, file system,
    thread-pool completion order, iteration order of a set, data store).
    Console output ([print], and
    the text of [log] lines) is not modelled. JSON numbers are modelled as
    integers; binary floating point is outside the model. The workers of
    the thread pool are run one after the other, which loses nothing: a
    fetch depends on, and changes, the request counter of its own url only
    ([fetch_local], [fetch_other]); the order in which their results are
    consumed is the world's ([w_finish]). *)

From Stdlib Require Import ZArith DecimalString DecimalPos DecimalZ.
From stdpp Require Import gmap strings list sorting.

Local Set Warnings "-register-all".
Local Open Scope string_scope.
Local Open Scope list_scope.
Local Open Scope Z_scope.

(** ** Python values and the primitive operations the two scripts use *)
Module Py.

(** The values [json.load] / [response.json()] produce. A [dict] is an
    association list in insertion order, keys being strings. *)
Inductive value : Type :=
| VNone
| VBool (b : bool)
| VInt (z : Z)
| VStr (s : string)
| VList (l : list value)
| VDict (d : list (string * value)).

Inductive exn : Type :=
| KeyError (key : string)
| TypeError
| IndexError
| AttributeError
| OSError.

Inductive outcome (A : Type) : Type :=
| Ok (a : A)
| Raise (e : exn).
Arguments Ok {A} a.
Arguments Raise {A} e.

(** [bool(v)]: what [if v] and [if not v] test. *)
Definition truthy (v : value) : bool :=
  match v with
  | VNone => false
  | VBool b => b
  | VInt z => negb (z =? 0)
  | VStr s => negb (String.eqb s "")
  | VList l => match l with [] => false | _ :: _ => true end
  | VDict d => match d with [] => false | _ :: _ => true end
  end.

(** [d.get(k)] on a dict: the value bound to [k], if any. *)
Fixpoint dict_get (d : list (string * value)) (k : string) : option value :=
  match d with
  | [] => None
  | (k', v) :: d' => if String.eqb k' k then Some v else dict_get d' k
  end.

(** [k in d] on a dict. *)
Definition dict_has (d : list (string * value)) (k : string) : bool :=
  match dict_get d k with Some _ => true | None => false end.

(** [d.keys()]. *)
Definition dict_keys (d : list (string * value)) : list string := d.*1.

(** [v[k]] with a string subscript: only a dict accepts it, and raises
    [KeyError] when the key is absent. *)
Definition getitem (v : value) (k : string) : outcome value :=
  match v with
  | VDict d => match dict_get d k with Some x => Ok x | None => Raise (KeyError k) end
  | _ => Raise TypeError
  end.

(** [str(z)] and [f"{z}"] for an integer. *)
Definition str_of_Z (z : Z) : string := NilZero.string_of_int (Z.to_int z).

(** [range(lo, hi)]. *)
Definition range (lo hi : Z) : list Z :=
  (λ i : nat, lo + Z.of_nat i) <$> seq 0 (Z.to_nat (hi - lo)).

(** [s in t] on two strings: substring test. *)
Fixpoint str_contains (t s : string) : bool :=
  String.prefix s t ||
  match t with
  | EmptyString => false
  | String _ t' => str_contains t' s
  end.

(** [s.endswith(suffix)]. *)
Definition endswith (s suffix : string) : bool :=
  let n := String.length s in
  let k := String.length suffix in
  (k <=? n)%nat && String.eqb (String.substring (n - k) k s) suffix.

(** Values usable as dict keys / set members (lists and dicts are not
    hashable: using one raises [TypeError]). *)
Definition hashable (v : value) : bool :=
  match v with
  | VList _ | VDict _ => false
  | _ => true
  end.

(** The integer a bool or int denotes ([True == 1], [False == 0]). *)
Definition as_int (v : value) : option Z :=
  match v with
  | VInt z => Some z
  | VBool b => Some (if b then 1 else 0)
  | _ => None
  end.

(** Equality of two hashable keys, as a dict or set decides it. *)
Definition key_eqb (a b : value) : bool :=
  match a, b with
  | VNone, VNone => true
  | VStr s, VStr t => String.eqb s t
  | _, _ =>
    match as_int a, as_int b with
    | Some x, Some y => x =? y
    | _, _ => false
    end
  end.

End Py.
Export Py.

(** ** scraper.py *)
Module Scraper.

Definition MAX_RETRIES : Z := 3.
Definition RETRY_DELAY : Z := 5.
Definition MAX_WORKERS : Z := 5.

(** What one [session.get(url, timeout=30)] followed by the status test
    and [response.json()] can give. *)
Inductive http_result : Type :=
| HError                                       (* the request raised: transport error, timeout *)
| HResponse (status : Z) (json : option value). (* [json = None]: [response.json()] raises *)

(** The collaborators outside the script. *)
Record world : Type := {
  (** answer of the remote API to the [k]-th request (from 0) for [url] *)
  w_server : string → nat → http_result;
  (** whether [open(path, 'w')] succeeds for a file name under OUTPUT_DIR *)
  w_writable : string → bool;
  (** [datetime.now().strftime("%Y%m%d")] when the scrape of a group starts *)
  w_today : string → Z → string;
  (** instant at which the future fetching [url] completes *)
  w_finish : string → nat;
}.

Inductive event : Type :=
| ECall (url : string)      (* entry into [fetch_data_with_retry(url)] *)
| EGet (url : string)       (* one [session.get(url)] *)
| ESleep (secs : Z)         (* [time.sleep(delay)] of the retry backoff *)
| EJitter                   (* [time.sleep(random.uniform(0.5, 2.5))] *)
| EPause.                   (* [time.sleep(random.uniform(1, 2))] *)

(** [st_reqs]: requests sent so far, per url. [st_files]: the contents of
    OUTPUT_DIR by file name. [st_trace]: one linearisation of the run. *)
Record state : Type := {
  st_reqs : gmap string nat;
  st_files : gmap string value;
  st_trace : list event;
}.

Definition emit (e : event) (st : state) : state :=
  {| st_reqs := st_reqs st; st_files := st_files st; st_trace := st_trace st ++ [e] |}.

(** [save_data(data, filename)]: every exception is caught inside. *)
Definition save_data (w : world) (data : value) (filename : string) (st : state)
  : bool * state :=
  if w_writable w filename then
    (true, {| st_reqs := st_reqs st; st_files := <[filename := data]> (st_files st);
              st_trace := st_trace st |})
  else (false, st).

Definition session_get (w : world) (url : string) (st : state) : http_result * state :=
  let k := default 0%nat (st_reqs st !! url) in
  (w_server w url k,
   {| st_reqs := <[url := S k]> (st_reqs st); st_files := st_files st;
      st_trace := st_trace st ++ [EGet url] |}).

(** The body of [for attempt in range(max_retries)], and the [return None]
    after it. *)
Fixpoint retry_loop (w : world) (max_retries retry_delay : Z) (url : string)
    (attempts : list Z) (st : state) : value * state :=
  match attempts with
  | [] => (VNone, st)
  | attempt :: rest =>
    let '(r, st1) := session_get w url st in
    let failed (_ : unit) :=
      let st2 := if attempt <? max_retries - 1
                 then emit (ESleep (retry_delay * (attempt + 1))) st1
                 else st1 in
      retry_loop w max_retries retry_delay url rest st2 in
    match r with
    | HResponse status (Some body) => if status =? 200 then (body, st1) else failed ()
    | HResponse _ None => failed ()
    | HError => failed ()
    end
  end.

Definition fetch_with (w : world) (max_retries retry_delay : Z) (url : string)
    (st : state) : value * state :=
  retry_loop w max_retries retry_delay url (range 0 max_retries) (emit (ECall url) st).

Definition fetch_data_with_retry (w : world) (url : string) (st : state) : value * state :=
  fetch_with w MAX_RETRIES RETRY_DELAY url st.

Definition base_url (gender : string) (age : Z) : string :=
  "?search[team_country]=USA"
  +:+ "&search[gender]=" +:+ gender
  +:+ "&search[age]=" +:+ str_of_Z age
  +:+ "&search[team_or_club_name]="
  +:+ "&search[team_association]=CAS"
  +:+ "&search[filter_by]=state".

Definition first_url (gender : string) (age : Z) : string :=
  base_url gender age +:+ "&search[page]=1".

Definition page_url (gender : string) (age : Z) (page : Z) : string :=
  base_url gender age +:+ "&search[page]=" +:+ str_of_Z page.

(** [f"{gender}_u{age}_page{n}_raw_{today}.json"] *)
Definition raw_name (gender : string) (age : Z) (n : Z) (today : string) : string :=
  gender +:+ "_u" +:+ str_of_Z age +:+ "_page" +:+ str_of_Z n +:+ "_raw_" +:+ today +:+ ".json".

(** [f"{gender}_u{age}_page1_raw_{today}.json"] *)
Definition first_raw_name (gender : string) (age : Z) (today : string) : string :=
  gender +:+ "_u" +:+ str_of_Z age +:+ "_page1_raw_" +:+ today +:+ ".json".

(** [f"{gender}_u{age}_team_data_{today}.json"] *)
Definition team_data_name (gender : string) (age : Z) (today : string) : string :=
  gender +:+ "_u" +:+ str_of_Z age +:+ "_team_data_" +:+ today +:+ ".json".

Definition MARKER_KEYS : list string := ["name"; "id"; "team"; "rank"].

(** [isinstance(sample, dict) and any(x in sample for x in MARKER_KEYS)] *)
Definition is_marked (sample : value) : bool :=
  match sample with
  | VDict sd => existsb (dict_has sd) MARKER_KEYS
  | _ => false
  end.

(** The loop [for key in data.keys()] of [scrape_group] over a dict [d];
    [all_teams] is the accumulator the loop extends in place, so what was
    added before an exception stays added. *)
Fixpoint scan_fields (d : list (string * value)) (keys : list string)
    (all_teams : list value) : outcome unit * list value :=
  match keys with
  | [] => (Ok tt, all_teams)
  | key :: rest =>
    if String.eqb key "team_ranking_data" then scan_fields d rest all_teams
    else
      match dict_get d key with
      | None => (Raise (KeyError key), all_teams)
      | Some (VList l) =>
        match l with
        | [] => (Raise IndexError, all_teams)            (* [data[key][0]] *)
        | sample :: _ =>
          if is_marked sample then scan_fields d rest (all_teams ++ l)
          else scan_fields d rest all_teams
        end
      | Some _ => scan_fields d rest all_teams
      end
  end.

(** The record extraction of [scrape_group] (from [teams_found = 0] to the
    end of the [for key] loop) on one page's [data]. *)
Definition extract_page (data : value) (all_teams : list value)
  : outcome unit * list value :=
  match data with
  | VDict d =>
    let all1 :=
      match dict_get d "team_ranking_data" with
      | Some (VList teams) => all_teams ++ teams
      | _ => all_teams
      end in
    scan_fields d (dict_keys d) all1
  | VList l =>
    (* ["team_ranking_data" in data] is element membership; then either
       [data["team_ranking_data"]] or [data.keys()] raises *)
    if existsb (λ x, match x with VStr s => String.eqb s "team_ranking_data" | _ => false end) l
    then (Raise TypeError, all_teams) else (Raise AttributeError, all_teams)
  | VStr s =>
    if str_contains s "team_ranking_data"
    then (Raise TypeError, all_teams) else (Raise AttributeError, all_teams)
  | _ => (Raise TypeError, all_teams)       (* [in] on an int, a bool or None *)
  end.

(** [v.get(k, dflt)]: only a dict has [.get]. *)
Definition get_default (v : value) (k : string) (dflt : value) : outcome value :=
  match v with
  | VDict d => Ok (default dflt (dict_get d k))
  | _ => Raise AttributeError
  end.

(** [total_pages + 1] *)
Definition plus_one (v : value) : outcome Z :=
  match as_int v with
  | Some z => Ok (z + 1)
  | None => Raise TypeError
  end.

(** The last page bound [total_pages + 1] read off the first page. *)
Definition page_bound (first_page : value) : outcome Z :=
  match get_default first_page "pagination" (VDict []) with
  | Raise e => Raise e
  | Ok pagination =>
    match get_default pagination "total_pages" (VInt 1) with
    | Raise e => Raise e
    | Ok total_pages => plus_one total_pages
    end
  end.

(** The futures of [executor.submit(fetch_data_with_retry, url)], one per
    url, each paired with its result. Every worker only touches the request
    counter of its own url, so the results do not depend on how the workers
    interleave; the trace lists them in submission order. *)
Fixpoint run_pool (w : world) (urls : list string) (st : state)
  : list (string * value) * state :=
  match urls with
  | [] => ([], st)
  | url :: rest =>
    let '(data, st1) := fetch_data_with_retry w url st in
    let '(rs, st2) := run_pool w rest st1 in
    ((url, data) :: rs, st2)
  end.

Definition finishes_before (w : world) (a b : string * value) : Prop :=
  (w_finish w a.1 ≤ w_finish w b.1)%nat.

#[global] Instance finishes_before_dec w a b : Decision (finishes_before w a b).
Proof. unfold finishes_before. apply _. Defined.

(** [as_completed(future_to_url)]: the futures by completion instant. *)
Definition as_completed (w : world) (futures : list (string * value))
  : list (string * value) :=
  merge_sort (finishes_before w) futures.

(** [for idx, future in enumerate(as_completed(future_to_url), 1)]; an
    exception of the body is caught and logged by its [except Exception]. *)
Fixpoint drain (w : world) (gender : string) (age : Z) (today : string) (idx : Z)
    (completed : list (string * value)) (all_teams : list value) (st : state)
  : list value * state :=
  match completed with
  | [] => (all_teams, st)
  | (url, data) :: rest =>
    let '(all1, st1) :=
      if truthy data then
        ((extract_page data all_teams).2,
         (save_data w data (raw_name gender age idx today) st).2)
      else (all_teams, st) in
    drain w gender age today (idx + 1) rest all1 (emit EJitter st1)
  end.

Definition scrape_group (w : world) (gender : string) (age : Z) (st : state)
  : outcome unit * state :=
  let today := w_today w gender age in
  let '(first_page, st1) := fetch_data_with_retry w (first_url gender age) st in
  if negb (truthy first_page) then (Ok tt, st1)
  else
    let st2 := (save_data w first_page (first_raw_name gender age today) st1).2 in
    match page_bound first_page with
    | Raise e => (Raise e, st2)
    | Ok bound =>
      let page_urls := page_url gender age <$> range 1 bound in
      let '(futures, st3) := run_pool w page_urls st2 in
      let '(all_teams, st4) :=
        drain w gender age today 1 (as_completed w futures) [] st3 in
      let st5 :=
        if truthy (VList all_teams)
        then (save_data w (VList all_teams) (team_data_name gender age today) st4).2
        else st4 in
      (Ok tt, st5)
    end.

(** [for gender in ['m', 'f']: for age in range(10, 20)] *)
Definition GROUPS : list (string * Z) :=
  gender ← ["m"; "f"]; age ← range 10 20; [(gender, age)].

Fixpoint run_groups (w : world) (groups : list (string * Z)) (st : state)
  : outcome unit * state :=
  match groups with
  | [] => (Ok tt, st)
  | (gender, age) :: rest =>
    match scrape_group w gender age st with
    | (Ok _, st1) => run_groups w rest (emit EPause st1)
    | (Raise e, st1) => (Raise e, st1)
    end
  end.

(** [open(path, 'w')] then [f.write(text)], outside [save_data]. *)
Definition write_marker (w : world) (filename text : string) (st : state)
  : outcome unit * state :=
  if w_writable w filename then
    (Ok tt, {| st_reqs := st_reqs st; st_files := <[filename := VStr text]> (st_files st);
               st_trace := st_trace st |})
  else (Raise OSError, st).

(** The [__main__] block; its [except Exception] ends the run. The
    timestamp text of the two marker files is not modelled. *)
Definition main (w : world) (st : state) : state :=
  match write_marker w "scraper_started.txt" "Scraper started at" st with
  | (Raise _, st1) => st1
  | (Ok _, st1) =>
    match run_groups w GROUPS st1 with
    | (Raise _, st2) => st2
    | (Ok _, st2) => (write_marker w "scraper_completed.txt" "Scraper completed at" st2).2
    end
  end.

End Scraper.

(** ** upload_teams_to_supabase.py *)
Module Upload.

Definition DATA_FOLDER : string := "./data".

#[global] Instance outcome_ret : MRet outcome := λ A a, Ok a.
#[global] Instance outcome_bind : MBind outcome := λ A B f c,
  match c with
  | Ok a => f a
  | Raise e => Raise e
  end.

(** What [open(filepath)] followed by [json.load(f)] gives. *)
Inductive file_result : Type :=
| FError (msg : string)     (* an exception, [msg] being its [str(e)] *)
| FJson (raw : value).

(** The collaborators outside the script. *)
Record world : Type := {
  w_listdir : outcome (list string);   (* [os.listdir(DATA_FOLDER)] *)
  w_read : string → file_result;
  w_store_accepts : bool;              (* whether [.upsert(...).execute()] returns *)
  w_log_writable : bool;               (* whether [open(log_path, 'w')] succeeds *)
  w_timestamp : string;                (* [datetime.now().strftime(...)] in [write_log] *)
  (** place of a member in the iteration of a [set], which goes by the
      hash table of the process and not by insertion *)
  w_set_rank : value → nat;
}.

(** What [write_log] writes, section by section; the text layout of the
    file is not modelled. *)
Record summary : Type := {
  s_timestamp : string;
  s_total_uploaded : Z;
  s_skipped_files : list (string * string);
  s_empty_files : list string;
  s_skipped_teams : list (value * string);
  s_duplicate_teams : list value;
}.

(** The five module-level accumulators, then what lies outside the process:
    the rows of the store's table by identity, the batches submitted to the
    store, and the log files written. *)
Record state : Type := {
  skipped_files : list (string * string);
  empty_files : list string;
  skipped_teams : list (value * string);
  duplicate_teams : list value;
  total_uploaded : Z;
  st_table : list (value * value);
  st_batches : list (list value);
  st_logs : gmap string summary;
}.

(** The state a fresh process starts in. *)
Definition start (table : list (value * value)) (batches : list (list value))
    (logs : gmap string summary) : state :=
  {| skipped_files := []; empty_files := []; skipped_teams := [];
     duplicate_teams := []; total_uploaded := 0;
     st_table := table; st_batches := batches; st_logs := logs |}.

Definition add_skipped_file (x : string * string) (st : state) : state :=
  {| skipped_files := skipped_files st ++ [x]; empty_files := empty_files st;
     skipped_teams := skipped_teams st; duplicate_teams := duplicate_teams st;
     total_uploaded := total_uploaded st; st_table := st_table st;
     st_batches := st_batches st; st_logs := st_logs st |}.

Definition add_empty_file (x : string) (st : state) : state :=
  {| skipped_files := skipped_files st; empty_files := empty_files st ++ [x];
     skipped_teams := skipped_teams st; duplicate_teams := duplicate_teams st;
     total_uploaded := total_uploaded st; st_table := st_table st;
     st_batches := st_batches st; st_logs := st_logs st |}.

Definition add_skipped_team (x : value * string) (st : state) : state :=
  {| skipped_files := skipped_files st; empty_files := empty_files st;
     skipped_teams := skipped_teams st ++ [x]; duplicate_teams := duplicate_teams st;
     total_uploaded := total_uploaded st; st_table := st_table st;
     st_batches := st_batches st; st_logs := st_logs st |}.

Definition add_duplicate_teams (xs : list value) (st : state) : state :=
  {| skipped_files := skipped_files st; empty_files := empty_files st;
     skipped_teams := skipped_teams st; duplicate_teams := duplicate_teams st ++ xs;
     total_uploaded := total_uploaded st; st_table := st_table st;
     st_batches := st_batches st; st_logs := st_logs st |}.

(** [for x in v]: what the loop iterates over. *)
Definition iter (v : value) : outcome (list value) :=
  match v with
  | VList l => Ok l
  | VDict d => Ok (VStr <$> dict_keys d)
  | VStr s => Ok ((λ c, VStr (String c EmptyString)) <$> String.list_ascii_of_string s)
  | _ => Raise TypeError
  end.

(** The dict display of [process_file], evaluated field by field. *)
Definition project (team : value) : outcome value :=
  id ← getitem team "id";
  team_name ← getitem team "team_name";
  total_points ← getitem team "total_points";
  age ← getitem team "age";
  gender ← getitem team "gender";
  national_rank ← Scraper.get_default team "national_rank" VNone;
  mret (VDict [("id", id); ("team_name", team_name); ("total_points", total_points);
               ("age", age); ("gender", gender); ("national_rank", national_rank)]).

(** [str(e)] of [KeyError(k)]. *)
Definition str_KeyError (k : string) : string := "'" +:+ k +:+ "'".

(** The loop [for team in teams] of [process_file]. *)
Fixpoint project_all (teams : list value) (records : list value) (st : state)
  : outcome (list value) * state :=
  match teams with
  | [] => (Ok records, st)
  | team :: rest =>
    match project team with
    | Ok record => project_all rest (records ++ [record]) st
    | Raise (KeyError k) =>
      match Scraper.get_default team "id" (VStr "unknown") with
      | Ok team_id => project_all rest records (add_skipped_team (team_id, str_KeyError k) st)
      | Raise e => (Raise e, st)
      end
    | Raise e => (Raise e, st)
    end
  end.

Definition process_file (w : world) (filepath : string) (st : state)
  : outcome (list value) * state :=
  match w_read w filepath with
  | FError msg => (Ok [], add_skipped_file (filepath, msg) st)
  | FJson raw =>
    let found :=
      match raw with
      | VList _ => Some raw
      | VDict d => dict_get d "team_ranking_data"
      | _ => None
      end in
    match found with
    | None => (Ok [], add_empty_file filepath st)
    | Some teams =>
      match iter teams with
      | Raise e => (Raise e, st)
      | Ok l => project_all l [] st
      end
    end
  end.

(** [k in unique_records] *)
Definition dict_mem (m : list (value * value)) (k : value) : bool :=
  existsb (λ kv, key_eqb kv.1 k) m.

(** [unique_records[k] = record]: a present key keeps its place (and the
    key object first inserted), a new one goes last. *)
Fixpoint dict_set (m : list (value * value)) (k record : value) : list (value * value) :=
  match m with
  | [] => [(k, record)]
  | (k', r') :: m' =>
    if key_eqb k' k then (k', record) :: m' else (k', r') :: dict_set m' k record
  end.

(** [duplicates.add(k)]. The list holds the members of the set; in which
    order a loop meets them is [set_iter]'s matter. *)
Definition set_add (s : list value) (k : value) : list value :=
  if existsb (λ k', key_eqb k' k) s then s else s ++ [k].

Definition ranked_before (w : world) (a b : value) : Prop :=
  (w_set_rank w a ≤ w_set_rank w b)%nat.

#[global] Instance ranked_before_dec w a b : Decision (ranked_before w a b).
Proof. unfold ranked_before. apply _. Defined.

(** [for x in s] on a set: its members, by their place in the hash table. *)
Definition set_iter (w : world) (s : list value) : list value :=
  merge_sort (ranked_before w) s.

(** The loop [for record in records] of [deduplicate_records]. *)
Fixpoint dedup_loop (records : list value) (unique_records : list (value * value))
    (duplicates : list value) : outcome (list (value * value) * list value) :=
  match records with
  | [] => Ok (unique_records, duplicates)
  | record :: rest =>
    record_id ← getitem record "id";
    if hashable record_id then
      dedup_loop rest (dict_set unique_records record_id record)
        (if dict_mem unique_records record_id then set_add duplicates record_id
         else duplicates)
    else Raise TypeError
  end.

Definition deduplicate_records (w : world) (records : list value) (st : state)
  : outcome (list value) * state :=
  match dedup_loop records [] [] with
  | Raise e => (Raise e, st)
  | Ok (unique_records, duplicates) =>
    (Ok unique_records.*2, add_duplicate_teams (set_iter w duplicates) st)
  end.

(** Modelled from the spec: the data store collaborator, whose code is not
    part of the repository. Its upsert takes a batch of records with the
    identity field as conflict key and inserts or updates each row;
    [row_key] is the conflict key of a record. *)
Definition row_key (record : value) : value :=
  default VNone (match record with VDict d => dict_get d "id" | _ => None end).

Definition store_upsert (batch : list value) (table : list (value * value))
  : list (value * value) :=
  fold_left (λ t record, dict_set t (row_key record) record) batch table.

(** [os.path.join(folder, filename)] for a name [os.listdir] gives (POSIX). *)
Definition path_join (folder filename : string) : string := folder +:+ "/" +:+ filename.

(** The loop [for filename in os.listdir(DATA_FOLDER)] of [main]. *)
Fixpoint read_all (w : world) (filenames : list string) (all_records : list value)
    (st : state) : outcome (list value) * state :=
  match filenames with
  | [] => (Ok all_records, st)
  | filename :: rest =>
    if endswith filename ".json" then
      match process_file w (path_join DATA_FOLDER filename) st with
      | (Ok records, st1) => read_all w rest (all_records ++ records) st1
      | (Raise e, st1) => (Raise e, st1)
      end
    else read_all w rest all_records st
  end.

Definition log_path (timestamp : string) : string := "upload_log_" +:+ timestamp +:+ ".txt".

Definition write_log (w : world) (st : state) : outcome unit * state :=
  if w_log_writable w then
    (Ok tt,
     {| skipped_files := skipped_files st; empty_files := empty_files st;
        skipped_teams := skipped_teams st; duplicate_teams := duplicate_teams st;
        total_uploaded := total_uploaded st; st_table := st_table st;
        st_batches := st_batches st;
        st_logs := <[log_path (w_timestamp w) :=
                      {| s_timestamp := w_timestamp w;
                         s_total_uploaded := total_uploaded st;
                         s_skipped_files := skipped_files st;
                         s_empty_files := empty_files st;
                         s_skipped_teams := skipped_teams st;
                         s_duplicate_teams := duplicate_teams st |}]> (st_logs st) |})
  else (Raise OSError, st).

(** [supabase.table(...).upsert(batch, on_conflict="id").execute()] inside
    its [try], with the assignment to [total_uploaded] that follows it. *)
Definition upsert (w : world) (batch : list value) (st : state) : state :=
  {| skipped_files := skipped_files st; empty_files := empty_files st;
     skipped_teams := skipped_teams st; duplicate_teams := duplicate_teams st;
     total_uploaded :=
       if w_store_accepts w then Z.of_nat (length batch) else total_uploaded st;
     st_table :=
       if w_store_accepts w then store_upsert batch (st_table st) else st_table st;
     st_batches := st_batches st ++ [batch];
     st_logs := st_logs st |}.

Definition main (w : world) (st : state) : outcome unit * state :=
  match w_listdir w with
  | Raise e => (Raise e, st)
  | Ok filenames =>
    match read_all w filenames [] st with
    | (Raise e, st1) => (Raise e, st1)
    | (Ok all_records, st1) =>
      if negb (truthy (VList all_records)) then (Ok tt, st1)
      else
        match deduplicate_records w all_records st1 with
        | (Raise e, st2) => (Raise e, st2)
        | (Ok deduplicated_records, st2) =>
          write_log w (upsert w deduplicated_records st2)
        end
    end
  end.

End Upload.

(** ** Notions the statements are written with *)
Module Spec.
Import Scraper.

(** A fetch attempt that the retry loop counts as failed: the request
    raised, the status is not 200, or the body of a 200 is not JSON. *)
Definition attempt_fails (r : http_result) : Prop :=
  match r with
  | HResponse status (Some _) => status ≠ 200
  | _ => True
  end.

(** The urls requested, the backoff delays slept and the number of calls
    of [fetch_data_with_retry] on a url, read off a trace. *)
Definition gets_of (tr : list event) : list string :=
  omap (λ e, match e with EGet url => Some url | _ => None end) tr.

Definition sleeps_of (tr : list event) : list Z :=
  omap (λ e, match e with ESleep secs => Some secs | _ => None end) tr.

Definition calls_of (tr : list event) : list string :=
  omap (λ e, match e with ECall url => Some url | _ => None end) tr.

(** How many times [x] occurs in [l]. *)
Definition count_of {A} `{EqDecision A} (x : A) (l : list A) : nat :=
  length (filter (λ y, y = x) l).

(** What a failed attempt, and a fetch whose attempts all fail, leave on
    the trace. *)
Definition backoff_step (max_retries retry_delay : Z) (url : string) (attempt : Z)
  : list event :=
  EGet url :: (if attempt <? max_retries - 1
               then [ESleep (retry_delay * (attempt + 1))] else []).

Definition backoff_script (max_retries retry_delay : Z) (url : string) : list event :=
  range 0 max_retries ≫= backoff_step max_retries retry_delay url.

(** What a fetch that succeeds at its attempt number [k] (from 0) leaves on
    the trace: [k] failed requests, each followed by its backoff, then the
    request that succeeds. *)
Definition retry_script (retry_delay : Z) (url : string) (k : nat) : list event :=
  (range 0 (Z.of_nat k) ≫= λ attempt, [EGet url; ESleep (retry_delay * (attempt + 1))])
  ++ [EGet url].

(** The requests sent so far for [url]. *)
Definition sent (st : state) (url : string) : nat := default 0%nat (st_reqs st !! url).

(** What one completed fetch contributes to the aggregate of its group. *)
Definition page_teams (data : value) : list value :=
  if truthy data then (extract_page data []).2 else [].

(** What the extraction takes from the canonical field of a dict payload,
    and from any other field [key]: a list is taken whole when its first
    element is a mapping with a marker key. *)
Definition canonical_part (d : list (string * value)) : list value :=
  match dict_get d "team_ranking_data" with
  | Some (VList teams) => teams
  | _ => []
  end.

Definition field_part (d : list (string * value)) (key : string) : list value :=
  if String.eqb key "team_ranking_data" then []
  else
    match dict_get d key with
    | Some (VList (sample :: rest)) => if is_marked sample then sample :: rest else []
    | _ => []
    end.

Definition extracted (d : list (string * value)) : list value :=
  canonical_part d ++ (key ← dict_keys d; field_part d key).

(** No field other than the canonical one holds an empty list. *)
Definition no_empty_list (d : list (string * value)) : Prop :=
  ∀ key, key ≠ "team_ranking_data" → dict_get d key ≠ Some (VList []).

(** No field matches the canonical name or the marker-key heuristic. *)
Definition no_match (d : list (string * value)) : Prop :=
  (∀ teams, dict_get d "team_ranking_data" ≠ Some (VList teams)) ∧
  ∀ key sample rest,
    dict_get d key = Some (VList (sample :: rest)) → is_marked sample = false.

End Spec.

(** ** Notions the statements about the uploader are written with *)
Module USpec.
Import Upload.

(** [record] carries identity [k]. *)
Definition has_id (k : value) (record : value) : bool :=
  match getitem record "id" with
  | Ok record_id => key_eqb record_id k
  | Raise _ => false
  end.

(** A record with an identity usable as a key. *)
Definition identified (record : value) : Prop :=
  ∃ record_id, getitem record "id" = Ok record_id ∧ hashable record_id = true.

(** [k] matches the key of a row, or an entry of a list of keys. *)
Definition row_is (k : value) (row : value * value) : bool := key_eqb row.1 k.
Definition key_is (k : value) (x : value) : bool := key_eqb x k.

Definition is_mapping (v : value) : bool :=
  match v with
  | VDict _ => true
  | _ => false
  end.

(** The items [process_file] iterates over in a parsed file. *)
Definition file_items (raw : value) : list value :=
  match raw with
  | VList l => l
  | VDict d =>
    match dict_get d "team_ranking_data" with
    | Some teams => match iter teams with Ok l => l | Raise _ => [] end
    | None => []
    end
  | _ => []
  end.

(** The records [process_file] keeps, and the entries it adds to
    [skipped_teams], for a list of raw records. *)
Definition kept (teams : list value) : list value :=
  omap (λ team, match project team with Ok record => Some record | Raise _ => None end)
    teams.

Definition skip_entry (team : value) (key : string) : value * string :=
  (default (VStr "unknown") (match team with VDict d => dict_get d "id" | _ => None end),
   str_KeyError key).

Definition skipped (teams : list value) : list (value * string) :=
  omap (λ team, match project team with
                | Raise (KeyError key) => Some (skip_entry team key)
                | _ => None
                end) teams.

Definition with_skipped_teams (xs : list (value * string)) (st : state) : state :=
  {| skipped_files := skipped_files st; empty_files := empty_files st;
     skipped_teams := skipped_teams st ++ xs; duplicate_teams := duplicate_teams st;
     total_uploaded := total_uploaded st; st_table := st_table st;
     st_batches := st_batches st; st_logs := st_logs st |}.

(** [record] is the canonical projection of the raw record [team]. *)
Definition canonical_of (team record : value) : Prop :=
  ∃ d id team_name total_points age gender,
    team = VDict d ∧
    dict_get d "id" = Some id ∧
    dict_get d "team_name" = Some team_name ∧
    dict_get d "total_points" = Some total_points ∧
    dict_get d "age" = Some age ∧
    dict_get d "gender" = Some gender ∧
    record = VDict [("id", id); ("team_name", team_name);
                    ("total_points", total_points); ("age", age); ("gender", gender);
                    ("national_rank", default VNone (dict_get d "national_rank"))].

(** What holds of the accumulators of [deduplicate_records] once the
    records [seen] went through its loop: each row is filed under the
    identity of its record; the rows answering to any key are the last
    record seen with that identity, if any; a key is in [duplicates] once
    when two records or more were seen with it, and not at all otherwise. *)
Definition dedup_inv (seen : list value) (unique_records : list (value * value))
    (duplicates : list value) : Prop :=
  Forall (λ row, has_id row.1 row.2 = true) unique_records ∧
  ∀ k,
    (List.filter (row_is k) unique_records).*2 =
      option_list (last (List.filter (has_id k) seen)) ∧
    length (List.filter (key_is k) duplicates) =
      if decide (2 ≤ length (List.filter (has_id k) seen))%nat then 1%nat else 0%nat.

(** No two rows of a table answer to the same identity. *)
Definition keys_distinct (table : list (value * value)) : Prop :=
  ∀ k, (length (List.filter (row_is k) table) ≤ 1)%nat.

(** The rows of a batch have pairwise different keys, each usable. *)
Fixpoint distinct_rows (batch : list value) : Prop :=
  match batch with
  | [] => True
  | record :: rest =>
    key_eqb (row_key record) (row_key record) = true ∧
    Forall (λ other, key_eqb (row_key other) (row_key record) = false) rest ∧
    distinct_rows rest
  end.

(** The keys [process_file] reads with [team[...]], in the order of its
    dict display, and the first of them a mapping lacks. *)
Definition REQUIRED : list string :=
  ["id"; "team_name"; "total_points"; "age"; "gender"].

Definition first_missing (d : list (string * value)) : option string :=
  List.find (λ key, negb (dict_has d key)) REQUIRED.

(** [st'] differs from [st] in the four accumulator lists at most: same
    table, same submitted batches, same log files, same [total_uploaded]. *)
Definition same_outside (st st' : state) : Prop :=
  st_table st' = st_table st ∧ st_batches st' = st_batches st ∧
  st_logs st' = st_logs st ∧ total_uploaded st' = total_uploaded st.

(** The batch a run of [main] submits to the store, when it gets that far:
    it depends on the input files only. *)
Definition submitted (w : world) : option (list value) :=
  match w_listdir w with
  | Raise _ => None
  | Ok filenames =>
    match (read_all w filenames [] (start [] [] ∅)).1 with
    | Raise _ => None
    | Ok all_records =>
      if truthy (VList all_records) then
        match (deduplicate_records w all_records (start [] [] ∅)).1 with
        | Ok deduplicated_records => Some deduplicated_records
        | Raise _ => None
        end
      else None
    end
  end.

End USpec.

(** ** Concrete folders for the examples about the uploader *)
Module USample.
Import Upload.

Definition team (id : Z) : value :=
  VDict [("id", VInt id); ("team_name", VStr "A"); ("total_points", VInt 10);
         ("age", VInt 12); ("gender", VStr "m")].

(** A hash table that holds small integers by their value. *)
Definition rank (v : value) : nat :=
  match v with
  | VInt z => Z.to_nat z
  | _ => 0%nat
  end.

(** A raw record without [team_name]. *)
Definition nameless : value :=
  VDict [("id", VInt 2); ("total_points", VInt 10); ("age", VInt 12);
         ("gender", VStr "m")].

Definition read (filepath : string) : file_result :=
  if String.eqb filepath "./data/teams.json"
  then FJson (VList [team 1; nameless; team 3])
  else if String.eqb filepath "./data/notes.json"
  then FJson (VDict [("unexpected", VBool true)])
  else FError "No such file or directory".

(** A folder with one file of records, one unrecognized file and one file
    that is not JSON by name. *)
Definition folder : world :=
  {| w_listdir := Ok ["teams.json"; "notes.json"; "readme.txt"];
     w_read := read; w_store_accepts := true; w_log_writable := true;
     w_timestamp := "2025-01-01_00-00-00"; w_set_rank := rank |}.

(** The same folder when the store rejects the batch. *)
Definition folder_rejected : world :=
  {| w_listdir := Ok ["teams.json"; "notes.json"; "readme.txt"];
     w_read := read; w_store_accepts := false; w_log_writable := true;
     w_timestamp := "2025-01-01_00-00-00"; w_set_rank := rank |}.

(** A folder whose file holds an item that is not a mapping. *)
Definition folder_with_number : world :=
  {| w_listdir := Ok ["numbers.json"];
     w_read := λ _, FJson (VList [team 1; VInt 7; team 3]);
     w_store_accepts := true; w_log_writable := true;
     w_timestamp := "2025-01-01_00-00-00"; w_set_rank := rank |}.

(** The example folder when the log file cannot be created. *)
Definition folder_no_log : world :=
  {| w_listdir := Ok ["teams.json"; "notes.json"; "readme.txt"];
     w_read := read; w_store_accepts := true; w_log_writable := false;
     w_timestamp := "2025-01-01_00-00-00"; w_set_rank := rank |}.

(** A folder with a file of one record, then a file whose item is a
    number. *)
Definition good_then_bad : world :=
  {| w_listdir := Ok ["good.json"; "bad.json"];
     w_read := λ filepath,
       if String.eqb filepath "./data/good.json" then FJson (VList [team 9])
       else FJson (VList [VInt 7]);
     w_store_accepts := true; w_log_writable := true;
     w_timestamp := "2025-01-01_00-00-00"; w_set_rank := rank |}.

(** A folder whose only file holds no records. *)
Definition only_notes : world :=
  {| w_listdir := Ok ["notes.json"];
     w_read := read; w_store_accepts := true; w_log_writable := true;
     w_timestamp := "2025-01-01_00-00-00"; w_set_rank := rank |}.

End USample.

(** ** Concrete worlds and inputs for the examples *)
Module Sample.
Import Scraper.

Definition empty_state : state :=
  {| st_reqs := ∅; st_files := ∅; st_trace := [] |}.

(** A remote API that refuses every connection. *)
Definition down : world :=
  {| w_server := λ _ _, HError; w_writable := λ _, true;
     w_today := λ _ _, "20250101"; w_finish := λ _, 0%nat |}.

(** A remote API that fails twice (a transport error, then a 503) before
    it answers. *)
Definition flaky : world :=
  {| w_server := λ _ k,
       match k with
       | 0%nat => HError
       | 1%nat => HResponse 503 (Some VNone)
       | _ => HResponse 200 (Some (VDict [("ok", VBool true)]))
       end;
     w_writable := λ _, true;
     w_today := λ _ _, "20250101"; w_finish := λ _, 0%nat |}.

(** A remote API that answers every request with an empty JSON object. *)
Definition hollow : world :=
  {| w_server := λ _ _, HResponse 200 (Some (VDict []));
     w_writable := λ _, true;
     w_today := λ _ _, "20250101"; w_finish := λ _, 0%nat |}.

(** A remote API that answers every request with a JSON array. *)
Definition array_api : world :=
  {| w_server := λ _ _, HResponse 200 (Some (VList [VInt 1]));
     w_writable := λ _, true;
     w_today := λ _ _, "20250101"; w_finish := λ _, 0%nat |}.

(** A remote API whose pages carry records but no pagination metadata. *)
Definition unpaged : world :=
  {| w_server := λ _ _,
       HResponse 200 (Some (VDict [("team_ranking_data", VList [VDict [("id", VInt 1)]])]));
     w_writable := λ _, true;
     w_today := λ _ _, "20250101"; w_finish := λ _, 0%nat |}.

(** Page [n] of a two-page group. *)
Definition payload (n : Z) : value :=
  VDict [("pagination", VDict [("current_page", VInt n); ("total_pages", VInt 2)]);
         ("team_ranking_data", VList [VDict [("id", VInt n); ("team_name", VStr "T")]])].

(** A remote API serving the two pages of group (m, 10), where the fetch
    of page 2 completes before the fetch of page 1. *)
Definition two_pages : world :=
  {| w_server := λ url _,
       if String.eqb url (page_url "m" 10 1) then HResponse 200 (Some (payload 1))
       else if String.eqb url (page_url "m" 10 2) then HResponse 200 (Some (payload 2))
       else HError;
     w_writable := λ _, true;
     w_today := λ _ _, "20250101";
     w_finish := λ url, if String.eqb url (page_url "m" 10 1) then 2%nat else 1%nat |}.

(** The three records of the last-wins example. *)
Definition tagged (id : Z) (v : string) : value :=
  VDict [("id", VInt id); ("v", VStr v)].

Definition three_records : list value := [tagged 1 "a"; tagged 2 "b"; tagged 1 "c"].

End Sample.

(** ** The Fetch Client: retry ceiling and backoff *)
Section Retry.
Import Scraper Spec.
Variables (w : world) (url : string).
Hypothesis all_fail : ∀ k, attempt_fails (w_server w url k).

Lemma retry_loop_failed_attempt max_retries retry_delay attempt rest st :
  retry_loop w max_retries retry_delay url (attempt :: rest) st =
  retry_loop w max_retries retry_delay url rest
    (let st1 := (session_get w url st).2 in
     if attempt <? max_retries - 1
     then emit (ESleep (retry_delay * (attempt + 1))) st1 else st1).
Proof.
  cbn [retry_loop]. unfold session_get. cbn [snd].
  pose proof (all_fail (default 0%nat (st_reqs st !! url))) as Hf.
  destruct (w_server w url _) as [|status [body|]]; try done.
  simpl in Hf. by destruct (Z.eqb_spec status 200).
Qed.

Lemma retry_loop_all_fail max_retries retry_delay attempts st :
  (retry_loop w max_retries retry_delay url attempts st).1 = VNone ∧
  st_files (retry_loop w max_retries retry_delay url attempts st).2 = st_files st ∧
  st_trace (retry_loop w max_retries retry_delay url attempts st).2 =
    st_trace st ++ (attempts ≫= backoff_step max_retries retry_delay url).
Proof.
  revert st. induction attempts as [|attempt rest IH]; intros st.
  - simpl. by rewrite app_nil_r.
  - rewrite retry_loop_failed_attempt.
    destruct (IH (let st1 := (session_get w url st).2 in
                  if attempt <? max_retries - 1
                  then emit (ESleep (retry_delay * (attempt + 1))) st1 else st1))
      as (-> & -> & ->).
    split_and!; [done| |]; cbn [mbind list_bind];
      change (backoff_step max_retries retry_delay url attempt)
        with (EGet url :: (if attempt <? max_retries - 1
                           then [ESleep (retry_delay * (attempt + 1))] else []));
      destruct (attempt <? max_retries - 1); simpl; try done;
      by rewrite <- !app_assoc.
Qed.

Lemma fetch_with_all_fail max_retries retry_delay st :
  (fetch_with w max_retries retry_delay url st).1 = VNone ∧
  st_files (fetch_with w max_retries retry_delay url st).2 = st_files st ∧
  st_trace (fetch_with w max_retries retry_delay url st).2 =
    st_trace st ++ ECall url :: backoff_script max_retries retry_delay url.
Proof.
  unfold fetch_with.
  destruct (retry_loop_all_fail max_retries retry_delay (range 0 max_retries)
              (emit (ECall url) st)) as (-> & -> & ->).
  split_and!; [done..|]. simpl. by rewrite <- app_assoc.
Qed.

End Retry.

Lemma range_unfold lo hi :
  range lo hi = if lo <? hi then lo :: range (lo + 1) hi else [].
Proof.
  unfold range. destruct (Z.ltb_spec lo hi) as [Hlt|Hge].
  - replace (Z.to_nat (hi - lo)) with (S (Z.to_nat (hi - (lo + 1)))) by lia.
    cbn [seq fmap list_fmap]. f_equal; [lia|].
    rewrite <- seq_shift, <- list_fmap_compose. apply list_fmap_ext.
    intros ? j ?. simpl. lia.
  - by replace (Z.to_nat (hi - lo)) with 0%nat by lia.
Qed.

Lemma length_range lo hi : length (range lo hi) = Z.to_nat (hi - lo).
Proof. unfold range. by rewrite length_fmap, length_seq. Qed.

Section Backoff.
Import Scraper Spec.
Variables (max_retries retry_delay : Z) (url : string).
Abbreviation step := (backoff_step max_retries retry_delay url).

Lemma gets_of_backoff_script :
  gets_of (backoff_script max_retries retry_delay url) =
  replicate (Z.to_nat max_retries) url.
Proof.
  assert (Hlen : ∀ l : list Z, gets_of (l ≫= step) = replicate (length l) url).
  { induction l as [|attempt rest IH]; [done|].
    cbn [mbind list_bind length replicate]. unfold gets_of in *.
    rewrite omap_app, IH. unfold backoff_step.
    by destruct (attempt <? max_retries - 1). }
  unfold backoff_script. by rewrite Hlen, length_range, Z.sub_0_r.
Qed.

Lemma sleeps_of_backoff_from (n : nat) (lo : Z) :
  Z.to_nat (max_retries - lo) = n →
  sleeps_of (range lo max_retries ≫= step) =
  (λ i, retry_delay * i) <$> range (lo + 1) max_retries.
Proof.
  revert lo. induction n as [|n IH]; intros lo Hn.
  - rewrite (range_unfold lo), (range_unfold (lo + 1)).
    destruct (Z.ltb_spec lo max_retries); [lia|].
    by destruct (Z.ltb_spec (lo + 1) max_retries); [lia|].
  - rewrite (range_unfold lo). destruct (Z.ltb_spec lo max_retries); [|lia].
    cbn [mbind list_bind]. unfold sleeps_of in *. rewrite omap_app.
    rewrite (IH (lo + 1)) by lia. rewrite (range_unfold (lo + 1)).
    unfold backoff_step.
    destruct (Z.ltb_spec lo (max_retries - 1)), (Z.ltb_spec (lo + 1) max_retries);
      try lia; simpl; [done|].
    rewrite (range_unfold (lo + 1 + 1)).
    by destruct (Z.ltb_spec (lo + 1 + 1) max_retries); [lia|].
Qed.

Lemma sleeps_of_backoff_script :
  sleeps_of (backoff_script max_retries retry_delay url) =
  (λ i, retry_delay * i) <$> range 1 max_retries.
Proof. by apply (sleeps_of_backoff_from (Z.to_nat (max_retries - 0)) 0). Qed.

Lemma last_backoff_from (n : nat) (lo : Z) :
  Z.to_nat (max_retries - lo) = S n →
  last (range lo max_retries ≫= step) = Some (EGet url).
Proof.
  revert lo. induction n as [|n IH]; intros lo Hn;
    rewrite (range_unfold lo); destruct (Z.ltb_spec lo max_retries); try lia;
    cbn [mbind list_bind]; rewrite last_app.
  - rewrite (range_unfold (lo + 1)).
    destruct (Z.ltb_spec (lo + 1) max_retries); [lia|]. simpl.
    unfold backoff_step. by destruct (Z.ltb_spec lo (max_retries - 1)); [lia|].
  - by rewrite (IH (lo + 1)) by lia.
Qed.

Lemma last_backoff_script :
  0 < max_retries →
  last (backoff_script max_retries retry_delay url) = Some (EGet url).
Proof.
  intros Hpos. apply (last_backoff_from (Z.to_nat (max_retries - 1)) 0). lia.
Qed.

End Backoff.

(** C3. When every attempt for [url] fails, [fetch_data_with_retry] returns
    [None] (it is a total function: nothing is raised) after exactly
    [MAX_RETRIES] requests, having slept [RETRY_DELAY * 1], ...,
    [RETRY_DELAY * (MAX_RETRIES - 1)] between consecutive attempts; the last
    event is the final request, with no delay after it. *)
Theorem C3_retry_ceiling (w : Scraper.world) (url : string) (st : Scraper.state) :
  (∀ k, Spec.attempt_fails (Scraper.w_server w url k)) →
  (Scraper.fetch_data_with_retry w url st).1 = VNone ∧
  ∃ tr,
    Scraper.st_trace (Scraper.fetch_data_with_retry w url st).2 =
      Scraper.st_trace st ++ Scraper.ECall url :: tr ∧
    Spec.gets_of tr = replicate (Z.to_nat Scraper.MAX_RETRIES) url ∧
    Spec.sleeps_of tr = (λ i, Scraper.RETRY_DELAY * i) <$> range 1 Scraper.MAX_RETRIES ∧
    last tr = Some (Scraper.EGet url) ∧
    tr = [Scraper.EGet url; Scraper.ESleep 5; Scraper.EGet url; Scraper.ESleep 10;
          Scraper.EGet url].
Proof.
  intros Hfail. unfold Scraper.fetch_data_with_retry.
  destruct (fetch_with_all_fail w url Hfail Scraper.MAX_RETRIES Scraper.RETRY_DELAY st)
    as (Hret & _ & Htr).
  split; [done|]. eexists. split; [exact Htr|]. split_and!.
  - apply gets_of_backoff_script.
  - apply sleeps_of_backoff_script.
  - by apply last_backoff_script.
  - reflexivity.
Qed.

Lemma C3_retry_ceiling_witness :
  (∀ k, Spec.attempt_fails (Scraper.w_server Sample.down "u" k)) ∧
  (Scraper.fetch_data_with_retry Sample.down "u" Sample.empty_state).1 = VNone ∧
  ∃ tr,
    Scraper.st_trace (Scraper.fetch_data_with_retry Sample.down "u" Sample.empty_state).2 =
      Scraper.st_trace Sample.empty_state ++ Scraper.ECall "u" :: tr ∧
    Spec.gets_of tr = replicate (Z.to_nat Scraper.MAX_RETRIES) "u" ∧
    Spec.sleeps_of tr = (λ i, Scraper.RETRY_DELAY * i) <$> range 1 Scraper.MAX_RETRIES ∧
    last tr = Some (Scraper.EGet "u") ∧
    tr = [Scraper.EGet "u"; Scraper.ESleep 5; Scraper.EGet "u"; Scraper.ESleep 10;
          Scraper.EGet "u"].
Proof.
  split; [intros k; exact I|].
  apply (C3_retry_ceiling Sample.down "u" Sample.empty_state). intros k. exact I.
Defined.

(** ** The Pagination Driver: which fetches a group issues *)
Section Calls.
Import Scraper Spec.
Variable w : world.

Lemma calls_of_snoc tr e :
  calls_of (tr ++ [e]) =
  calls_of tr ++ match e with ECall url => [url] | _ => [] end.
Proof. unfold calls_of. rewrite omap_app. by destruct e. Qed.

Lemma retry_loop_quiet max_retries retry_delay url attempts st :
  st_files (retry_loop w max_retries retry_delay url attempts st).2 = st_files st ∧
  calls_of (st_trace (retry_loop w max_retries retry_delay url attempts st).2) =
    calls_of (st_trace st).
Proof.
  revert st. induction attempts as [|attempt rest IH]; intros st; [done|].
  cbn [retry_loop]. unfold session_get.
  set (st1 := {| st_reqs := _; st_files := _; st_trace := _ |}).
  set (st2 := if attempt <? max_retries - 1 then _ else _).
  assert (Hst2 : st_files st2 = st_files st ∧
                 calls_of (st_trace st2) = calls_of (st_trace st)).
  { subst st2 st1. destruct (attempt <? max_retries - 1); simpl;
      by rewrite ?calls_of_snoc, ?app_nil_r. }
  destruct Hst2 as [Hf Hc]. destruct (IH st2) as [IHf IHc].
  destruct (w_server w url _) as [|status [body|]];
    [by rewrite IHf, IHc| |by rewrite IHf, IHc].
  destruct (status =? 200); [|by rewrite IHf, IHc].
  subst st1. simpl. by rewrite calls_of_snoc, app_nil_r.
Qed.

Lemma fetch_calls url st :
  st_files (fetch_data_with_retry w url st).2 = st_files st ∧
  calls_of (st_trace (fetch_data_with_retry w url st).2) =
    calls_of (st_trace st) ++ [url].
Proof.
  unfold fetch_data_with_retry, fetch_with.
  destruct (retry_loop_quiet MAX_RETRIES RETRY_DELAY url (range 0 MAX_RETRIES)
              (emit (ECall url) st)) as [-> ->].
  simpl. by rewrite calls_of_snoc.
Qed.

(** A fetch reads and advances the request counter of its own url only:
    what the workers of the pool return does not depend on how they
    interleave. *)
Lemma retry_loop_local max_retries retry_delay url attempts st1 st2 :
  st_reqs st1 !! url = st_reqs st2 !! url →
  (retry_loop w max_retries retry_delay url attempts st1).1 =
  (retry_loop w max_retries retry_delay url attempts st2).1.
Proof.
  revert st1 st2. induction attempts as [|attempt rest IH]; intros st1 st2 Hreq;
    [done|].
  cbn [retry_loop]. unfold session_get. rewrite Hreq.
  destruct (w_server w url _) as [|status [body|]]; try destruct (status =? 200);
    try done; apply IH; destruct (attempt <? max_retries - 1); simpl;
    by rewrite !lookup_insert_eq.
Qed.

Lemma fetch_local url st1 st2 :
  st_reqs st1 !! url = st_reqs st2 !! url →
  (fetch_data_with_retry w url st1).1 = (fetch_data_with_retry w url st2).1.
Proof. intros Hreq. by apply retry_loop_local. Qed.

Lemma retry_loop_other max_retries retry_delay url url' attempts st :
  url' ≠ url →
  st_reqs (retry_loop w max_retries retry_delay url attempts st).2 !! url' =
  st_reqs st !! url'.
Proof.
  intros Hne. revert st. induction attempts as [|attempt rest IH]; intros st; [done|].
  cbn [retry_loop]. unfold session_get.
  set (st1 := {| st_reqs := _; st_files := _; st_trace := _ |}).
  set (st2 := if attempt <? max_retries - 1 then _ else _).
  assert (Hst2 : st_reqs st2 !! url' = st_reqs st !! url').
  { subst st2 st1. destruct (attempt <? max_retries - 1); simpl;
      by rewrite lookup_insert_ne. }
  destruct (w_server w url _) as [|status [body|]]; [by rewrite IH| |by rewrite IH].
  destruct (status =? 200); [|by rewrite IH].
  subst st1. simpl. by rewrite lookup_insert_ne.
Qed.

Lemma fetch_other url url' st :
  url' ≠ url →
  st_reqs (fetch_data_with_retry w url st).2 !! url' = st_reqs st !! url'.
Proof.
  intros Hne. unfold fetch_data_with_retry, fetch_with.
  by rewrite retry_loop_other.
Qed.

Lemma save_data_trace data filename st :
  st_trace (save_data w data filename st).2 = st_trace st.
Proof. unfold save_data. by destruct (w_writable w filename). Qed.

Lemma run_pool_calls urls st :
  calls_of (st_trace (run_pool w urls st).2) = calls_of (st_trace st) ++ urls.
Proof.
  revert st. induction urls as [|url rest IH]; intros st.
  - simpl. by rewrite app_nil_r.
  - cbn [run_pool].
    destruct (fetch_data_with_retry w url st) as [data st1] eqn:Hfetch.
    specialize (IH st1). destruct (run_pool w rest st1) as [rs st2]. simpl in *.
    rewrite IH. pose proof (fetch_calls url st) as [_ Hc]. rewrite Hfetch in Hc.
    simpl in Hc. by rewrite Hc, <- app_assoc.
Qed.

Lemma drain_calls gender age today idx completed all_teams st :
  calls_of (st_trace (drain w gender age today idx completed all_teams st).2) =
  calls_of (st_trace st).
Proof.
  revert idx all_teams st.
  induction completed as [|[url data] rest IH]; intros idx all_teams st; [done|].
  cbn [drain]. destruct (truthy data); rewrite IH; simpl;
    by rewrite calls_of_snoc, app_nil_r, ?save_data_trace.
Qed.

End Calls.

Lemma str_of_Z_inj : Inj (=) (=) str_of_Z.
Proof.
  intros x y Heq. unfold str_of_Z in Heq. apply to_int_inj.
  assert (Hnn : ∀ z, Z.to_int z ≠ Decimal.Pos Decimal.Nil ∧
                     Z.to_int z ≠ Decimal.Neg Decimal.Nil).
  { intros [|q|q]; split; simpl; try done;
      intros [= Hq]; by apply Unsigned.to_uint_nonnil in Hq. }
  destruct (Hnn x) as [Hx1 Hx2], (Hnn y) as [Hy1 Hy2].
  pose proof (NilZero.isi _ Hx1 Hx2) as Hx. pose proof (NilZero.isi _ Hy1 Hy2) as Hy.
  rewrite Heq in Hx. congruence.
Qed.

Lemma page_url_inj gender age : Inj (=) (=) (Scraper.page_url gender age).
Proof.
  intros x y Heq. unfold Scraper.page_url in Heq.
  by apply String.app_inj, String.app_inj, str_of_Z_inj in Heq.
Qed.

Lemma first_url_page_url gender age :
  Scraper.first_url gender age = Scraper.page_url gender age 1.
Proof. reflexivity. Qed.

Lemma count_of_cons {A} `{EqDecision A} (x y : A) l :
  Spec.count_of x (y :: l) =
  ((if decide (y = x) then 1 else 0) + Spec.count_of x l)%nat.
Proof. unfold Spec.count_of. rewrite filter_cons. by case_decide. Qed.

Lemma count_of_fmap_inj {A B} `{EqDecision A, EqDecision B}
    (f : B → A) `{!Inj (=) (=) f} x l :
  Spec.count_of (f x) (f <$> l) = Spec.count_of x l.
Proof.
  induction l as [|y l IH]; [done|].
  rewrite fmap_cons, !count_of_cons, IH.
  destruct (decide (y = x)) as [->|Hne].
  - by rewrite decide_True.
  - rewrite decide_False; [done|]. intros Heq. by apply (inj f) in Heq.
Qed.

Lemma count_of_range (p lo hi : Z) :
  Spec.count_of p (range lo hi) = if decide (lo ≤ p < hi) then 1%nat else 0%nat.
Proof.
  remember (Z.to_nat (hi - lo)) as n eqn:Hn. revert lo Hn.
  induction n as [|n IH]; intros lo Hn; rewrite range_unfold.
  - destruct (Z.ltb_spec lo hi); [lia|]. by case_decide; [lia|].
  - destruct (Z.ltb_spec lo hi); [|lia].
    rewrite count_of_cons, IH by lia. repeat case_decide; lia.
Qed.

(** C7. When the page-1 fetch of a group returns [None], [scrape_group]
    returns normally in the state that fetch left: the only call of
    [fetch_data_with_retry] is the one for page 1, no file (raw page or
    aggregate) is written, and the run goes on with the next group. *)
Theorem C7_group_abort (w : Scraper.world) (gender : string) (age : Z)
    (st : Scraper.state) :
  (Scraper.fetch_data_with_retry w (Scraper.first_url gender age) st).1 = VNone →
  Scraper.scrape_group w gender age st =
    (Ok tt, (Scraper.fetch_data_with_retry w (Scraper.first_url gender age) st).2) ∧
  Spec.calls_of (Scraper.st_trace (Scraper.scrape_group w gender age st).2) =
    Spec.calls_of (Scraper.st_trace st) ++ [Scraper.first_url gender age] ∧
  Scraper.st_files (Scraper.scrape_group w gender age st).2 = Scraper.st_files st ∧
  ∀ rest,
    Scraper.run_groups w ((gender, age) :: rest) st =
    Scraper.run_groups w rest
      (Scraper.emit Scraper.EPause (Scraper.scrape_group w gender age st).2).
Proof.
  intros Hfail.
  assert (Hsg : Scraper.scrape_group w gender age st =
    (Ok tt, (Scraper.fetch_data_with_retry w (Scraper.first_url gender age) st).2)).
  { unfold Scraper.scrape_group.
    destruct (Scraper.fetch_data_with_retry w _ st) as [first_page st1].
    simpl in Hfail. by subst first_page. }
  destruct (fetch_calls w (Scraper.first_url gender age) st) as [Hfiles Hcalls].
  split_and!; [done|by rewrite Hsg|by rewrite Hsg|].
  intros rest. cbn [Scraper.run_groups]. by rewrite Hsg.
Qed.

Lemma C7_group_abort_witness :
  Scraper.scrape_group Sample.down "m" 10 Sample.empty_state =
    (Ok tt, (Scraper.fetch_data_with_retry Sample.down
               (Scraper.first_url "m" 10) Sample.empty_state).2) ∧
  Spec.calls_of (Scraper.st_trace
      (Scraper.scrape_group Sample.down "m" 10 Sample.empty_state).2) =
    Spec.calls_of (Scraper.st_trace Sample.empty_state) ++ [Scraper.first_url "m" 10] ∧
  Scraper.st_files (Scraper.scrape_group Sample.down "m" 10 Sample.empty_state).2 =
    Scraper.st_files Sample.empty_state ∧
  ∀ rest,
    Scraper.run_groups Sample.down (("m", 10) :: rest) Sample.empty_state =
    Scraper.run_groups Sample.down rest
      (Scraper.emit Scraper.EPause
         (Scraper.scrape_group Sample.down "m" 10 Sample.empty_state).2).
Proof. apply (C7_group_abort Sample.down "m" 10 Sample.empty_state). reflexivity. Defined.

Lemma scrape_group_calls (w : Scraper.world) (gender : string) (age : Z)
    (st : Scraper.state) d pagination total_pages bound :
  (Scraper.fetch_data_with_retry w (Scraper.first_url gender age) st).1 = VDict d →
  dict_get d "pagination" = Some pagination →
  Scraper.get_default pagination "total_pages" (VInt 1) = Ok total_pages →
  Scraper.plus_one total_pages = Ok bound →
  (Scraper.scrape_group w gender age st).1 = Ok tt ∧
  Spec.calls_of (Scraper.st_trace (Scraper.scrape_group w gender age st).2) =
    Spec.calls_of (Scraper.st_trace st) ++
    Scraper.first_url gender age :: (Scraper.page_url gender age <$> range 1 bound).
Proof.
  intros Hfirst Hpag Htotal Hbound. unfold Scraper.scrape_group.
  pose proof (fetch_calls w (Scraper.first_url gender age) st) as [_ Hcalls].
  destruct (Scraper.fetch_data_with_retry w _ st) as [first_page st1].
  simpl in Hfirst, Hcalls. subst first_page.
  assert (Htruthy : truthy (VDict d) = true) by by destruct d.
  rewrite Htruthy. cbn [negb].
  unfold Scraper.page_bound.
  change (Scraper.get_default (VDict d) "pagination" (VDict []))
    with (Ok (default (VDict []) (dict_get d "pagination"))).
  rewrite Hpag. change (default (VDict []) (Some pagination)) with pagination.
  rewrite Htotal, Hbound.
  set (st2 := (Scraper.save_data w _ _ st1).2).
  pose proof (run_pool_calls w (Scraper.page_url gender age <$> range 1 bound) st2)
    as Hpool.
  destruct (Scraper.run_pool w _ st2) as [futures st3].
  pose proof (drain_calls w gender age (Scraper.w_today w gender age) 1
                (Scraper.as_completed w futures) [] st3) as Hdrain.
  destruct (Scraper.drain w _ _ _ _ _ _ st3) as [all_teams st4].
  split; [done|]. simpl in Hpool, Hdrain |- *.
  assert (Hlast : ∀ b data name,
    Spec.calls_of (Scraper.st_trace
      (if b : bool then (Scraper.save_data w data name st4).2 else st4)) =
    Spec.calls_of (Scraper.st_trace st4)).
  { intros [] ??; by rewrite ?save_data_trace. }
  rewrite Hlast, Hdrain, Hpool. subst st2.
  by rewrite save_data_trace, Hcalls, <- app_assoc.
Qed.

(** C1 (as amended). When the page-1 fetch of a group succeeds and reports
    [total_pages = N], the calls of [fetch_data_with_retry] the group makes
    are the synchronous one for page 1 followed by one call per page
    [1..N] from the pool: page 1 is fetched twice when [1 ≤ N] (once
    otherwise), every page [2..N] exactly once, and no other page. *)
Theorem C1_page_fetches (w : Scraper.world) (gender : string) (age : Z)
    (st : Scraper.state) d pagination (N : Z) :
  (Scraper.fetch_data_with_retry w (Scraper.first_url gender age) st).1 = VDict d →
  dict_get d "pagination" = Some (VDict pagination) →
  dict_get pagination "total_pages" = Some (VInt N) →
  ∃ calls,
    (Scraper.scrape_group w gender age st).1 = Ok tt ∧
    Spec.calls_of (Scraper.st_trace (Scraper.scrape_group w gender age st).2) =
      Spec.calls_of (Scraper.st_trace st) ++ calls ∧
    calls = Scraper.first_url gender age ::
            (Scraper.page_url gender age <$> range 1 (N + 1)) ∧
    ∀ p, Spec.count_of (Scraper.page_url gender age p) calls =
         ((if decide (p = 1)%Z then 1 else 0) +
          (if decide (1 ≤ p ≤ N)%Z then 1 else 0))%nat.
Proof.
  intros Hfirst Hpag Htotal.
  destruct (scrape_group_calls w gender age st d (VDict pagination) (VInt N) (N + 1))
    as [Hok Hcalls]; [done|done|by simpl; rewrite Htotal|done|].
  eexists. split_and!; [done|exact Hcalls|done|].
  intros p. pose proof (page_url_inj gender age) as Hinj.
  rewrite first_url_page_url, count_of_cons.
  rewrite (count_of_fmap_inj (Scraper.page_url gender age)), count_of_range.
  f_equal.
  - destruct (decide (1 = p)) as [<-|Hne].
    + by rewrite !decide_True.
    + rewrite !decide_False; [done|congruence|].
      intros Heq. by apply page_url_inj in Heq.
  - repeat case_decide; lia.
Qed.

Lemma C1_page_fetches_witness :
  ∃ calls,
    (Scraper.scrape_group Sample.two_pages "m" 10 Sample.empty_state).1 = Ok tt ∧
    Spec.calls_of (Scraper.st_trace
        (Scraper.scrape_group Sample.two_pages "m" 10 Sample.empty_state).2) =
      Spec.calls_of (Scraper.st_trace Sample.empty_state) ++ calls ∧
    calls = Scraper.first_url "m" 10 :: (Scraper.page_url "m" 10 <$> range 1 (2 + 1)) ∧
    ∀ p, Spec.count_of (Scraper.page_url "m" 10 p) calls =
         ((if decide (p = 1)%Z then 1 else 0) +
          (if decide (1 ≤ p ≤ 2)%Z then 1 else 0))%nat.
Proof.
  apply (C1_page_fetches Sample.two_pages "m" 10 Sample.empty_state
           [("pagination", VDict [("current_page", VInt 1); ("total_pages", VInt 2)]);
            ("team_ranking_data",
             VList [VDict [("id", VInt 1); ("team_name", VStr "T")]])]
           [("current_page", VInt 1); ("total_pages", VInt 2)] 2);
    reflexivity.
Defined.

(** C1 as stated fails: in a two-page group, page 1 is fetched twice. *)
Lemma C1_page_one_fetched_twice :
  Spec.count_of (Scraper.page_url "m" 10 1)
    (Spec.calls_of (Scraper.st_trace
       (Scraper.scrape_group Sample.two_pages "m" 10 Sample.empty_state).2)) = 2%nat ∧
  Spec.count_of (Scraper.page_url "m" 10 1)
    (Spec.calls_of (Scraper.st_trace
       (Scraper.scrape_group Sample.two_pages "m" 10 Sample.empty_state).2)) ≠ 1%nat.
Proof. split; [by vm_compute|]. vm_compute. discriminate. Qed.

(** C8 fails on the code: the raw file of a pooled page is named after the
    rank of its fetch in completion order. When page 2 completes first, the
    file named page1 holds page 2 and the file named page2 holds page 1. *)
Theorem C8_raw_file_named_by_completion_rank :
  let st := (Scraper.scrape_group Sample.two_pages "m" 10 Sample.empty_state).2 in
  Scraper.raw_name "m" 10 1 "20250101" = "m_u10_page1_raw_20250101.json" ∧
  Scraper.st_files st !! "m_u10_page1_raw_20250101.json" = Some (Sample.payload 2) ∧
  Scraper.st_files st !! "m_u10_page2_raw_20250101.json" = Some (Sample.payload 1).
Proof. by vm_compute. Qed.

(** ** The Record Extractor *)
Lemma dict_get_keys (d : list (string * value)) key :
  key ∈ dict_keys d → is_Some (dict_get d key).
Proof.
  unfold dict_keys. induction d as [|[k v] d IH]; simpl.
  - by intros ?%elem_of_nil.
  - intros Hin. destruct (String.eqb_spec k key) as [->|Hne]; [by eexists|].
    apply IH. by apply elem_of_cons in Hin as [?|?].
Qed.

Lemma scan_fields_extracted d keys all_teams :
  keys ⊆ dict_keys d →
  Spec.no_empty_list d →
  Scraper.scan_fields d keys all_teams =
    (Ok tt, all_teams ++ (key ← keys; Spec.field_part d key)).
Proof.
  intros Hsub Hne. revert all_teams Hsub.
  induction keys as [|key rest IH]; intros all_teams Hsub.
  - simpl. by rewrite app_nil_r.
  - assert (Hrest : rest ⊆ dict_keys d) by set_solver.
    cbn [Scraper.scan_fields mbind list_bind]. unfold Spec.field_part at 1.
    destruct (String.eqb_spec key "team_ranking_data") as [->|Hkey]; [by apply IH|].
    destruct (dict_get_keys d key) as [v Hv]; [set_solver|]. rewrite Hv.
    destruct v as [| | | |[|sample l]|]; try by apply IH.
    + by apply Hne in Hv.
    + destruct (Scraper.is_marked sample); [|by apply IH].
      rewrite IH by done. by rewrite <- app_assoc.
Qed.

Lemma extracted_no_match d : Spec.no_match d → Spec.extracted d = [].
Proof.
  intros [Hcanon Hfields]. unfold Spec.extracted, Spec.canonical_part.
  assert (Hnil : ∀ keys : list string, keys ≫= Spec.field_part d = []).
  { induction keys as [|key rest IH]; [done|].
    cbn [mbind list_bind]. rewrite IH, app_nil_r. unfold Spec.field_part.
    destruct (String.eqb key "team_ranking_data"); [done|].
    destruct (dict_get d key) as [[| | | |[|sample l]|]|] eqn:Hget; try done.
    by rewrite (Hfields _ _ _ Hget). }
  rewrite Hnil, app_nil_r.
  destruct (dict_get d "team_ranking_data") as [[| | | |teams|]|]; try done.
  by destruct (Hcanon teams).
Qed.

(** C4 (as amended). On a payload that is a JSON object none of whose
    fields other than [team_ranking_data] holds an empty list, the record
    extraction raises nothing and adds to the aggregate the canonical list
    followed by every other list field whose first element is a mapping with
    a marker key, each such list taken whole; a list whose first element is
    not such a mapping is skipped and the scan goes on. When no field
    matches, nothing is extracted; [{"bar": [1, 2, 3]}] gives the empty
    sequence and [{"foo": [{"id": 1, "name": "A"}]}] gives that record. *)
Theorem C4_extraction (d : list (string * value)) (all_teams : list value) :
  Spec.no_empty_list d →
  Scraper.extract_page (VDict d) all_teams = (Ok tt, all_teams ++ Spec.extracted d) ∧
  (Spec.no_match d → Scraper.extract_page (VDict d) [] = (Ok tt, [])) ∧
  Scraper.extract_page (VDict [("bar", VList [VInt 1; VInt 2; VInt 3])]) [] = (Ok tt, []) ∧
  Scraper.extract_page
    (VDict [("foo", VList [VDict [("id", VInt 1); ("name", VStr "A")]])]) [] =
    (Ok tt, [VDict [("id", VInt 1); ("name", VStr "A")]]).
Proof.
  intros Hne.
  assert (Hgen : ∀ all, Scraper.extract_page (VDict d) all =
                        (Ok tt, all ++ Spec.extracted d)).
  { intros all. unfold Scraper.extract_page, Spec.extracted, Spec.canonical_part.
    rewrite scan_fields_extracted by done.
    destruct (dict_get d "team_ranking_data") as [[]|]; simpl; try done.
    by rewrite app_assoc. }
  split_and!; [done| |done|done].
  intros Hno. by rewrite Hgen, extracted_no_match.
Qed.

Lemma C4_extraction_witness :
  let d := [("pagination", VDict [("total_pages", VInt 1)]);
            ("team_ranking_data", VList [VDict [("id", VInt 7)]]);
            ("clubs", VList [VDict [("name", VStr "C")]; VInt 0]);
            ("notes", VList [VStr "n"])] in
  Scraper.extract_page (VDict d) [] =
    (Ok tt, [VDict [("id", VInt 7)]; VDict [("name", VStr "C")]; VInt 0]).
Proof.
  intros d. apply (C4_extraction d []).
  intros key Hkey. unfold d. cbn [dict_get].
  repeat (destruct (String.eqb _ key); [done|]). done.
Defined.

(** C4 as stated fails: an element that is not a mapping is kept when the
    first element of its list passes the marker test, and an empty list
    field makes the scan raise [IndexError], so the later fields are not
    scanned. *)
Lemma C4_malformed_kept_and_empty_list_raises :
  Scraper.extract_page (VDict [("foo", VList [VDict [("id", VInt 1)]; VInt 2])]) [] =
    (Ok tt, [VDict [("id", VInt 1)]; VInt 2]) ∧
  Scraper.extract_page
    (VDict [("meta", VList []);
            ("foo", VList [VDict [("id", VInt 1); ("name", VStr "A")]])]) [] =
    (Raise IndexError, []).
Proof. by vm_compute. Qed.

(** ** Keys: the equality a dict or set decides *)
Lemma key_eqb_refl k : hashable k = true → key_eqb k k = true.
Proof.
  destruct k as [|[]|z|s| |]; cbn -[Z.eqb String.eqb]; try done; intros _.
  - apply Z.eqb_refl.
  - apply String.eqb_refl.
Qed.

Lemma key_eqb_sym a b : key_eqb a b = key_eqb b a.
Proof.
  destruct a as [|[]|x|s| |], b as [|[]|y|t| |]; cbn -[Z.eqb String.eqb];
    try done; try apply Z.eqb_sym. apply String.eqb_sym.
Qed.

Lemma key_eqb_hashable a b : key_eqb a b = true → hashable a = true.
Proof. by destruct a as [|[]|x|s| |], b as [|[]|y|t| |]. Qed.

(** Keys that are equal answer alike to any third key. *)
Lemma key_eqb_trans a b c : key_eqb a b = true → key_eqb a c = key_eqb b c.
Proof.
  destruct a as [|[]|x|s| |], b as [|[]|y|t| |]; cbn -[Z.eqb String.eqb];
    try done;
    try (intros Hst%String.eqb_eq; by subst);
    intros Hxy%Z.eqb_eq; subst; try done;
    by destruct c as [|[]|?|?| |].
Qed.

Lemma key_eqb_trans_r a b c : key_eqb a b = true → key_eqb c a = key_eqb c b.
Proof. intros Hab. rewrite !(key_eqb_sym c). by apply key_eqb_trans. Qed.

Section DictSet.
Import Upload USpec.

(** Rows answering to [k] after [m[kr] = record]. *)
Lemma filter_dict_set m kr record k :
  List.filter (row_is k) (dict_set m kr record) =
  if key_eqb kr k then
    match List.filter (row_is k) m with
    | [] => [(kr, record)]
    | (k0, _) :: rows => (k0, record) :: rows
    end
  else List.filter (row_is k) m.
Proof.
  induction m as [|[k' r'] m IH]; cbn [dict_set List.filter].
  - unfold row_is. cbn [fst]. by destruct (key_eqb kr k).
  - destruct (key_eqb k' kr) eqn:Hk'; cbn [List.filter];
      unfold row_is in *; cbn [fst] in *.
    + rewrite (key_eqb_trans k' kr k Hk'). by destruct (key_eqb kr k).
    + rewrite IH. destruct (key_eqb kr k) eqn:Hkr; [|done].
      by rewrite <- (key_eqb_trans_r kr k k' Hkr), Hk'.
Qed.

Lemma dict_mem_filter m k :
  dict_mem m k = match List.filter (row_is k) m with [] => false | _ => true end.
Proof.
  unfold dict_mem. induction m as [|[k' r'] m IH]; [done|].
  cbn [existsb List.filter]. rewrite IH. unfold row_is. cbn [fst].
  by destruct (key_eqb k' k).
Qed.

Lemma set_add_filter s kr k :
  List.filter (key_is k) (set_add s kr) =
  if key_eqb kr k then
    match List.filter (key_is k) s with
    | [] => [kr]
    | xs => xs
    end
  else List.filter (key_is k) s.
Proof.
  unfold set_add.
  assert (Hex : existsb (λ k', key_eqb k' kr) s =
                match List.filter (key_is kr) s with [] => false | _ => true end).
  { induction s as [|x s IH]; [done|]. cbn [existsb List.filter]. rewrite IH.
    unfold key_is. by destruct (key_eqb x kr). }
  assert (Hsame : key_eqb kr k = true →
                  List.filter (key_is k) s = List.filter (key_is kr) s).
  { intros Hkr. apply List.filter_ext. intros x. unfold key_is.
    symmetry. by apply key_eqb_trans_r. }
  rewrite Hex. destruct (key_eqb kr k) eqn:Hkr.
  - rewrite Hsame by done.
    destruct (List.filter (key_is kr) s) eqn:Hf.
    + rewrite List.filter_app, Hsame by done. cbn [List.filter app].
      unfold key_is. by rewrite Hkr.
    + by rewrite Hsame.
  - destruct (List.filter (key_is kr) s); [|done].
    rewrite List.filter_app. cbn [List.filter]. unfold key_is. rewrite Hkr.
    by rewrite app_nil_r.
Qed.

End DictSet.

(** ** Deduplication *)
Section Dedup.
Import Upload USpec.

Lemma row_is_ext kr k m :
  key_eqb kr k = true → List.filter (row_is kr) m = List.filter (row_is k) m.
Proof.
  intros Hkr. apply List.filter_ext. intros row. unfold row_is.
  by apply key_eqb_trans_r.
Qed.

Lemma has_id_row k k0 record :
  has_id k0 record = true → has_id k record = key_eqb k0 k.
Proof.
  unfold has_id. destruct (getitem record "id") as [record_id|]; [|done].
  intros Hid. rewrite <- (key_eqb_trans _ _ k Hid). done.
Qed.

Lemma dict_set_rows (P : value * value → Prop) m kr record :
  Forall P m →
  (∀ k', key_eqb k' kr = true → P (k', record)) →
  (key_eqb kr kr = true → P (kr, record)) →
  key_eqb kr kr = true →
  Forall P (dict_set m kr record).
Proof.
  intros Hm Hrepl Hnew Hrefl. induction Hm as [|[k' r'] m Hrow Hm IH]; simpl.
  - constructor; [by apply Hnew|constructor].
  - destruct (key_eqb k' kr) eqn:Hk'; constructor; auto.
Qed.

Lemma dedup_inv_nil : dedup_inv [] [] [].
Proof. split; [constructor|]. intros k. by split. Qed.

Lemma dedup_inv_step seen unique_records duplicates record record_id :
  dedup_inv seen unique_records duplicates →
  getitem record "id" = Ok record_id →
  hashable record_id = true →
  dedup_inv (seen ++ [record]) (dict_set unique_records record_id record)
    (if dict_mem unique_records record_id then set_add duplicates record_id
     else duplicates).
Proof.
  intros [Hrows Hinv] Hget Hhash.
  pose proof (key_eqb_refl _ Hhash) as Hrefl.
  assert (Hhas : ∀ k, has_id k record = key_eqb record_id k).
  { intros k. unfold has_id. by rewrite Hget. }
  split.
  - apply dict_set_rows; [done| | |done].
    + intros k' Hk'. cbn [fst snd]. by rewrite Hhas, key_eqb_sym.
    + intros _. cbn [fst snd]. by rewrite Hhas.
  - intros k. destruct (Hinv k) as [Hlast Hdups].
    rewrite filter_dict_set, List.filter_app. cbn [List.filter]. rewrite Hhas.
    rewrite dict_mem_filter.
    destruct (key_eqb record_id k) eqn:Hk.
    + rewrite (row_is_ext _ _ _ Hk), last_snoc, length_app. cbn [length option_list].
      destruct (List.filter (row_is k) unique_records) as [|[k0 r0] rows];
        destruct (List.filter (has_id k) seen) as [|x xs] eqn:Hseen using rev_ind;
        try (rewrite last_snoc in Hlast); try done.
      clear IHxs. cbn [fmap list_fmap option_list] in Hlast.
      injection Hlast as _ Hnil. apply fmap_nil_inv in Hnil as ->.
      split; [done|]. rewrite set_add_filter, Hk.
      rewrite length_app in Hdups |- *. cbn [length] in Hdups |- *.
      destruct (List.filter (key_is k) duplicates) as [|y ys];
        repeat case_decide; simpl in *; lia.
    + rewrite app_nil_r. split; [done|].
      destruct (List.filter (row_is record_id) unique_records); [done|].
      by rewrite set_add_filter, Hk.
Qed.

Lemma dedup_loop_inv rest seen unique_records duplicates :
  dedup_inv seen unique_records duplicates →
  Forall identified rest →
  ∃ u d,
    dedup_loop rest unique_records duplicates = Ok (u, d) ∧
    dedup_inv (seen ++ rest) u d.
Proof.
  intros Hinv Hrest. revert seen unique_records duplicates Hinv.
  induction Hrest as [|record rest (record_id & Hget & Hhash) _ IH];
    intros seen unique_records duplicates Hinv.
  - exists unique_records, duplicates. by rewrite app_nil_r.
  - cbn [dedup_loop]. rewrite Hget. cbn [mbind outcome_bind]. rewrite Hhash.
    destruct (IH (seen ++ [record]) _ _
                (dedup_inv_step _ _ _ _ _ Hinv Hget Hhash)) as (u & d & Hloop & Hfin).
    exists u, d. by rewrite <- app_assoc in Hfin.
Qed.

Lemma dedup_loop_identified records unique_records duplicates u d :
  dedup_loop records unique_records duplicates = Ok (u, d) →
  Forall identified records.
Proof.
  revert unique_records duplicates.
  induction records as [|record rest IH]; intros unique_records duplicates Hloop;
    [constructor|].
  cbn [dedup_loop] in Hloop.
  destruct (getitem record "id") as [record_id|] eqn:Hget; [|done].
  cbn [mbind outcome_bind] in Hloop.
  destruct (hashable record_id) eqn:Hhash; [|done].
  constructor; [by exists record_id|by eapply IH].
Qed.

Lemma filter_has_id_rows k (rows : list (value * value)) :
  Forall (λ row, has_id row.1 row.2 = true) rows →
  List.filter (has_id k) rows.*2 = (List.filter (row_is k) rows).*2.
Proof.
  induction 1 as [|[k0 r] rows Hrow _ IH]; [done|].
  cbn [fmap list_fmap List.filter fst snd] in *.
  fold (fmap (M := list) (@snd value value)) in *. unfold row_is at 1.
  cbn [fst]. rewrite (has_id_row k k0 r Hrow).
  destruct (key_eqb k0 k); cbn [fmap list_fmap]; by rewrite IH.
Qed.

End Dedup.

Lemma filter_length_perm {A} (f : A → bool) (l l' : list A) :
  l ≡ₚ l' → length (List.filter f l) = length (List.filter f l').
Proof.
  induction 1 as [|x l l' _ IH|x y l|l1 l2 l3 _ IH1 _ IH2]; simpl.
  - done.
  - destruct (f x); simpl; by rewrite IH.
  - by destruct (f x), (f y).
  - by rewrite IH1.
Qed.

Lemma deduplicate_records_spec (w : Upload.world) (records : list value)
    (st : Upload.state) :
  Forall USpec.identified records →
  ∃ out dups,
    Upload.deduplicate_records w records st =
      (Ok out, Upload.add_duplicate_teams dups st) ∧
    Forall (λ record, record ∈ records) out ∧
    ∀ k,
      List.filter (USpec.has_id k) out =
        option_list (last (List.filter (USpec.has_id k) records)) ∧
      length (List.filter (USpec.key_is k) dups) =
        if decide (2 ≤ length (List.filter (USpec.has_id k) records))%nat
        then 1%nat else 0%nat.
Proof.
  intros Hid.
  destruct (dedup_loop_inv records [] [] [] dedup_inv_nil Hid)
    as (u & d & Hloop & Hrows & Hinv).
  cbn [app] in Hrows, Hinv.
  assert (Hout : ∀ k, List.filter (USpec.has_id k) u.*2 =
                      option_list (last (List.filter (USpec.has_id k) records))).
  { intros k. rewrite filter_has_id_rows by done. apply Hinv. }
  exists u.*2, (Upload.set_iter w d). unfold Upload.deduplicate_records. rewrite Hloop.
  split_and!; [done| |].
  - apply Forall_forall. intros record Hin.
    apply list_elem_of_fmap in Hin as ([k0 r] & -> & Hrow).
    rewrite Forall_forall in Hrows. specialize (Hrows _ Hrow). cbn [fst snd] in *.
    assert (Hfil : In r (List.filter (USpec.has_id k0) u.*2)).
    { apply List.filter_In. split; [|done].
      apply list_elem_of_In, list_elem_of_fmap. by exists (k0, r). }
    rewrite Hout in Hfil.
    destruct (last (List.filter (USpec.has_id k0) records)) as [x|] eqn:Hlast;
      [|done].
    destruct Hfil as [<-|[]]. apply last_Some_elem_of, list_elem_of_In in Hlast.
    apply List.filter_In in Hlast as [Hlast _]. by apply list_elem_of_In.
  - intros k. split; [apply Hout|].
    rewrite (filter_length_perm _ _ d)
      by apply (merge_sort_Permutation (Upload.ranked_before w)).
    apply Hinv.
Qed.

(** C2. On records that each carry a hashable identity,
    [deduplicate_records] returns normally; for every key, the output holds
    at most one record with that identity, namely the last one of the input
    with it, unchanged (every output record is an input record). What it
    reports is what it leaves in [duplicate_teams]: the list as it was,
    followed by each identity that occurred more than once exactly once, and
    by no other; the rest of the state is as before. *)
Theorem C2_dedup_last_wins (w : Upload.world) (records : list value)
    (st : Upload.state) :
  Forall USpec.identified records →
  ∃ out dups,
    (Upload.deduplicate_records w records st).1 = Ok out ∧
    Upload.duplicate_teams (Upload.deduplicate_records w records st).2 =
      Upload.duplicate_teams st ++ dups ∧
    Upload.skipped_files (Upload.deduplicate_records w records st).2 =
      Upload.skipped_files st ∧
    Upload.empty_files (Upload.deduplicate_records w records st).2 =
      Upload.empty_files st ∧
    Upload.skipped_teams (Upload.deduplicate_records w records st).2 =
      Upload.skipped_teams st ∧
    USpec.same_outside st (Upload.deduplicate_records w records st).2 ∧
    Forall (λ record, record ∈ records) out ∧
    ∀ k,
      List.filter (USpec.has_id k) out =
        option_list (last (List.filter (USpec.has_id k) records)) ∧
      length (List.filter (USpec.key_is k) dups) =
        if decide (2 ≤ length (List.filter (USpec.has_id k) records))%nat
        then 1%nat else 0%nat.
Proof.
  intros Hid.
  destruct (deduplicate_records_spec w records st Hid)
    as (out & dups & Hrun & Hsub & Hspec).
  exists out, dups. rewrite Hrun. cbn [fst snd].
  split_and!; [reflexivity..|by repeat split|done|done].
Qed.

Lemma C2_dedup_last_wins_witness :
  ∃ out dups,
    (Upload.deduplicate_records USample.folder Sample.three_records
       (Upload.start [] [] ∅)).1 = Ok out ∧
    Upload.duplicate_teams
      (Upload.deduplicate_records USample.folder Sample.three_records
         (Upload.start [] [] ∅)).2 =
      Upload.duplicate_teams (Upload.start [] [] ∅) ++ dups ∧
    Upload.skipped_files
      (Upload.deduplicate_records USample.folder Sample.three_records
         (Upload.start [] [] ∅)).2 = Upload.skipped_files (Upload.start [] [] ∅) ∧
    Upload.empty_files
      (Upload.deduplicate_records USample.folder Sample.three_records
         (Upload.start [] [] ∅)).2 = Upload.empty_files (Upload.start [] [] ∅) ∧
    Upload.skipped_teams
      (Upload.deduplicate_records USample.folder Sample.three_records
         (Upload.start [] [] ∅)).2 = Upload.skipped_teams (Upload.start [] [] ∅) ∧
    USpec.same_outside (Upload.start [] [] ∅)
      (Upload.deduplicate_records USample.folder Sample.three_records
         (Upload.start [] [] ∅)).2 ∧
    Forall (λ record, record ∈ Sample.three_records) out ∧
    ∀ k,
      List.filter (USpec.has_id k) out =
        option_list (last (List.filter (USpec.has_id k) Sample.three_records)) ∧
      length (List.filter (USpec.key_is k) dups) =
        if decide (2 ≤ length (List.filter (USpec.has_id k) Sample.three_records))%nat
        then 1%nat else 0%nat.
Proof.
  apply (C2_dedup_last_wins USample.folder Sample.three_records (Upload.start [] [] ∅)).
  unfold Sample.three_records.
  repeat (apply List.Forall_cons; [eexists; split; reflexivity|]).
  apply List.Forall_nil.
Defined.

(** The last-wins example of the specification. *)
Example dedup_three_records (w : Upload.world) (st : Upload.state) :
  Upload.deduplicate_records w Sample.three_records st =
    (Ok [Sample.tagged 1 "c"; Sample.tagged 2 "b"],
     Upload.add_duplicate_teams [VInt 1] st) ∧
  Upload.duplicate_teams (Upload.deduplicate_records w Sample.three_records st).2 =
    Upload.duplicate_teams st ++ [VInt 1].
Proof. split; reflexivity. Qed.

(** The duplicates are reported in the order of the set's hash table, not
    in the order they were met: with small integers held by value, the
    identities 3, 3, 1, 1 are reported as 1, 3. *)
Example duplicates_in_hash_order :
  Upload.duplicate_teams
    (Upload.deduplicate_records USample.folder
       [Sample.tagged 3 "a"; Sample.tagged 3 "b"; Sample.tagged 1 "c";
        Sample.tagged 1 "d"] (Upload.start [] [] ∅)).2 = [VInt 1; VInt 3].
Proof. reflexivity. Qed.

(** ** Projection of raw records *)
Section Projection.
Import Upload USpec.

Lemma with_skipped_teams_nil st : with_skipped_teams [] st = st.
Proof. destruct st. unfold with_skipped_teams. simpl. by rewrite app_nil_r. Qed.

Lemma with_skipped_teams_cons x xs st :
  with_skipped_teams (x :: xs) st = with_skipped_teams xs (add_skipped_team x st).
Proof.
  unfold with_skipped_teams, add_skipped_team. simpl. by rewrite <- app_assoc.
Qed.

(** On a mapping, [project] gives a record or a [KeyError]. *)
Lemma project_mapping d :
  (∃ record, project (VDict d) = Ok record) ∨
  (∃ key, project (VDict d) = Raise (KeyError key)).
Proof.
  unfold project. cbn [getitem Scraper.get_default mbind outcome_bind].
  repeat (match goal with
          | |- context [dict_get d ?k] =>
            lazymatch k with
            | "national_rank" => fail
            | _ => destruct (dict_get d k); [|right; by eexists]
            end
          end; cbn [mbind outcome_bind]).
  left. by eexists.
Qed.

Lemma project_canonical team record :
  project team = Ok record → canonical_of team record.
Proof.
  destruct team as [| | | | |d]; try done.
  unfold project. cbn [getitem Scraper.get_default mbind outcome_bind].
  destruct (dict_get d "id") as [id|] eqn:Hid; [|done].
  destruct (dict_get d "team_name") as [team_name|] eqn:Hname; [|done].
  destruct (dict_get d "total_points") as [total_points|] eqn:Hpoints; [|done].
  destruct (dict_get d "age") as [age|] eqn:Hage; [|done].
  destruct (dict_get d "gender") as [gender|] eqn:Hgender; [|done].
  cbn [mbind outcome_bind mret outcome_ret]. intros [= <-].
  by exists d, id, team_name, total_points, age, gender.
Qed.

Lemma project_all_mappings teams records st :
  Forall (λ team, is_mapping team = true) teams →
  project_all teams records st =
    (Ok (records ++ kept teams), with_skipped_teams (skipped teams) st).
Proof.
  intros Hmap. revert records st.
  induction Hmap as [|team rest Hteam _ IH]; intros records st.
  - simpl. by rewrite app_nil_r, with_skipped_teams_nil.
  - destruct team as [| | | | |d]; try done.
    cbn [project_all]. unfold kept, skipped. cbn [omap list_omap].
    fold (omap (M := list)
            (λ team, match project team with Ok r => Some r | Raise _ => None end)).
    destruct (project_mapping d) as [[record Hp]|[key Hp]]; rewrite Hp.
    + rewrite IH. by rewrite <- app_assoc.
    + cbn [Scraper.get_default]. rewrite IH, with_skipped_teams_cons. done.
Qed.

Lemma project_all_from teams records st out st' :
  project_all teams records st = (Ok out, st') →
  Forall (λ record, record ∈ records ∨ ∃ team, team ∈ teams ∧ canonical_of team record)
    out.
Proof.
  revert records st. induction teams as [|team rest IH]; intros records st Hrun.
  - injection Hrun as <- _. apply Forall_forall. auto.
  - cbn [project_all] in Hrun.
    destruct (project team) as [record|e] eqn:Hp.
    + apply IH in Hrun. eapply Forall_impl; [exact Hrun|].
      intros r [Hin|(team' & Hin & Hcan)].
      * apply elem_of_app in Hin as [Hin|Hin%list_elem_of_singleton]; [by left|].
        subst r. right. exists team. split; [left|by apply project_canonical].
      * right. exists team'. split; [by right|done].
    + destruct e as [key| | | |]; try done.
      destruct (Scraper.get_default team "id" (VStr "unknown")); [|done].
      apply IH in Hrun. eapply Forall_impl; [exact Hrun|].
      intros r [Hin|(team' & Hin & Hcan)]; [by left|].
      right. exists team'. split; [by right|done].
Qed.

Lemma process_file_items w filepath raw st :
  w_read w filepath = FJson raw →
  file_items raw ≠ [] →
  process_file w filepath st = project_all (file_items raw) [] st.
Proof.
  intros Hread Hne. unfold process_file. rewrite Hread.
  destruct raw as [| | | |l|d]; try done. simpl in *.
  destruct (dict_get d "team_ranking_data") as [teams|]; [|done].
  by destruct (iter teams).
Qed.

Lemma process_file_from w filepath st records :
  (process_file w filepath st).1 = Ok records →
  Forall (λ record, ∃ raw team,
            w_read w filepath = FJson raw ∧ team ∈ file_items raw ∧
            canonical_of team record) records.
Proof.
  intros Hrun. unfold process_file in Hrun.
  destruct (w_read w filepath) as [msg|raw] eqn:Hread.
  { injection Hrun as <-. constructor. }
  assert (Hitems : ∀ l, (project_all l [] st).1 = Ok records → file_items raw = l →
    Forall (λ record, ∃ raw0 team,
              FJson raw = FJson raw0 ∧ team ∈ file_items raw0 ∧
              canonical_of team record) records).
  { intros l Hl <-. destruct (project_all _ _ _) as [res st'] eqn:Hall.
    simpl in Hl. subst res. apply project_all_from in Hall.
    eapply Forall_impl; [exact Hall|].
    intros r [Hin|(team & Hin & Hcan)]; [by apply elem_of_nil in Hin|].
    by exists raw, team. }
  destruct raw as [| | | |l|d]; try (injection Hrun as <-; constructor).
  - by apply (Hitems l).
  - simpl in Hrun. destruct (dict_get d "team_ranking_data") as [teams|] eqn:Hget;
      [|injection Hrun as <-; constructor].
    destruct (iter teams) as [l|] eqn:Hiter; [|done].
    apply (Hitems l Hrun). simpl. by rewrite Hget, Hiter.
Qed.

End Projection.

(** C5. In a file whose items are mappings, a raw record whose projection
    fails on a required field is the one record left out: [process_file]
    returns the projections of the records before and after it, adds one
    entry for it to [skipped_teams] (its identity if it has one, else
    ['unknown'], with the missing key), and [main] goes on with the next
    file. *)
Theorem C5_required_field_drop (w : Upload.world) (filepath : string)
    (st : Upload.state) (raw : value) (pre post : list value) (team : value)
    (key : string) :
  Upload.w_read w filepath = Upload.FJson raw →
  USpec.file_items raw = pre ++ team :: post →
  Forall (λ item, USpec.is_mapping item = true) (pre ++ team :: post) →
  Upload.project team = Raise (KeyError key) →
  Upload.process_file w filepath st =
    (Ok (USpec.kept pre ++ USpec.kept post),
     USpec.with_skipped_teams
       (USpec.skipped pre ++ USpec.skip_entry team key :: USpec.skipped post) st) ∧
  ∀ filename rest all_records,
    filepath = Upload.path_join Upload.DATA_FOLDER filename →
    endswith filename ".json" = true →
    Upload.read_all w (filename :: rest) all_records st =
    Upload.read_all w rest (all_records ++ USpec.kept pre ++ USpec.kept post)
      (USpec.with_skipped_teams
         (USpec.skipped pre ++ USpec.skip_entry team key :: USpec.skipped post) st).
Proof.
  intros Hread Hitems Hmap Hfail.
  assert (Hfile : Upload.process_file w filepath st =
    (Ok (USpec.kept pre ++ USpec.kept post),
     USpec.with_skipped_teams
       (USpec.skipped pre ++ USpec.skip_entry team key :: USpec.skipped post) st)).
  { rewrite (process_file_items w filepath raw st Hread)
      by (rewrite Hitems; by destruct pre).
    rewrite Hitems, project_all_mappings by done.
    unfold USpec.kept, USpec.skipped. rewrite !omap_app. cbn [omap list_omap].
    by rewrite Hfail. }
  split; [done|]. intros filename rest all_records -> Hjson.
  cbn [Upload.read_all]. by rewrite Hjson, Hfile.
Qed.

Lemma C5_required_field_drop_witness :
  Upload.process_file USample.folder "./data/teams.json" (Upload.start [] [] ∅) =
    (Ok (USpec.kept [USample.team 1] ++ USpec.kept [USample.team 3]),
     USpec.with_skipped_teams
       (USpec.skipped [USample.team 1] ++
        USpec.skip_entry USample.nameless "team_name" ::
        USpec.skipped [USample.team 3]) (Upload.start [] [] ∅)) ∧
  ∀ filename rest all_records,
    "./data/teams.json" = Upload.path_join Upload.DATA_FOLDER filename →
    endswith filename ".json" = true →
    Upload.read_all USample.folder (filename :: rest) all_records
      (Upload.start [] [] ∅) =
    Upload.read_all USample.folder rest
      (all_records ++ USpec.kept [USample.team 1] ++ USpec.kept [USample.team 3])
      (USpec.with_skipped_teams
         (USpec.skipped [USample.team 1] ++
          USpec.skip_entry USample.nameless "team_name" ::
          USpec.skipped [USample.team 3]) (Upload.start [] [] ∅)).
Proof.
  apply (C5_required_field_drop USample.folder "./data/teams.json"
           (Upload.start [] [] ∅)
           (VList [USample.team 1; USample.nameless; USample.team 3])
           [USample.team 1] [USample.team 3] USample.nameless "team_name");
    try reflexivity.
  repeat constructor.
Defined.

(** The skipped entry of the example names the record and the missing key. *)
Example skipped_nameless :
  Upload.skipped_teams
    (Upload.process_file USample.folder "./data/teams.json" (Upload.start [] [] ∅)).2 =
  [(VInt 2, "'team_name'")].
Proof. reflexivity. Qed.

(** C6 fails on the code: when no record is found, [main] returns before
    [write_log]; the run ends normally with the unrecognized file noted in
    [empty_files] and no summary written. *)
Theorem C6_no_summary_without_records :
  (Upload.main USample.only_notes (Upload.start [] [] ∅)).1 = Ok tt ∧
  Upload.empty_files (Upload.main USample.only_notes (Upload.start [] [] ∅)).2 =
    ["./data/notes.json"] ∧
  Upload.st_logs (Upload.main USample.only_notes (Upload.start [] [] ∅)).2 = ∅.
Proof. by vm_compute. Qed.

(** When records are found, the summary is written whether or not the
    store accepts the batch. *)
Example summary_written_on_upsert_failure :
  Upload.s_total_uploaded <$>
    Upload.st_logs (Upload.main USample.folder_rejected (Upload.start [] [] ∅)).2
      !! "upload_log_2025-01-01_00-00-00.txt" = Some 0 ∧
  Upload.s_total_uploaded <$>
    Upload.st_logs (Upload.main USample.folder (Upload.start [] [] ∅)).2
      !! "upload_log_2025-01-01_00-00-00.txt" = Some 2.
Proof. by vm_compute. Qed.

(** ** What a run of the uploader does to the store *)
Section Store.
Import Upload USpec.

(** Reading the files touches neither the table nor the submitted batches,
    and the records read do not depend on the accumulators. *)
Lemma project_all_frame teams records st :
  st_table (project_all teams records st).2 = st_table st ∧
  st_batches (project_all teams records st).2 = st_batches st.
Proof.
  revert records st. induction teams as [|team rest IH]; intros records st; [done|].
  cbn [project_all]. destruct (project team) as [record|[key| | | |]]; try done.
  destruct (Scraper.get_default team "id" (VStr "unknown")) as [team_id|]; [|done].
  by destruct (IH records (add_skipped_team (team_id, str_KeyError key) st))
    as [-> ->].
Qed.

Lemma project_all_result teams records st1 st2 :
  (project_all teams records st1).1 = (project_all teams records st2).1.
Proof.
  revert records st1 st2.
  induction teams as [|team rest IH]; intros records st1 st2; [done|].
  cbn [project_all]. destruct (project team) as [record|[key| | | |]]; try done.
  destruct (Scraper.get_default team "id" (VStr "unknown")); [|done].
  apply IH.
Qed.

Lemma process_file_frame w filepath st :
  st_table (process_file w filepath st).2 = st_table st ∧
  st_batches (process_file w filepath st).2 = st_batches st.
Proof.
  unfold process_file. destruct (w_read w filepath) as [msg|raw]; [done|].
  destruct (match raw with VList _ => _ | _ => _ end) as [teams|]; [|done].
  destruct (iter teams); [|done]. apply project_all_frame.
Qed.

Lemma process_file_result w1 w2 filepath st1 st2 :
  w_read w1 = w_read w2 →
  (process_file w1 filepath st1).1 = (process_file w2 filepath st2).1.
Proof.
  intros Hread. unfold process_file. rewrite Hread.
  destruct (w_read w2 filepath) as [msg|raw]; [done|].
  destruct (match raw with VList _ => _ | _ => _ end) as [teams|]; [|done].
  destruct (iter teams); [|done]. apply project_all_result.
Qed.

Lemma read_all_frame w filenames all_records st :
  st_table (read_all w filenames all_records st).2 = st_table st ∧
  st_batches (read_all w filenames all_records st).2 = st_batches st.
Proof.
  revert all_records st.
  induction filenames as [|filename rest IH]; intros all_records st; [done|].
  cbn [read_all]. destruct (endswith filename ".json"); [|apply IH].
  pose proof (process_file_frame w (path_join DATA_FOLDER filename) st) as [Ht Hb].
  destruct (process_file w _ st) as [[records|e] st1]; simpl in Ht, Hb.
  - destruct (IH (all_records ++ records) st1) as [-> ->]. by rewrite Ht, Hb.
  - done.
Qed.

Lemma read_all_result w1 w2 filenames all_records st1 st2 :
  w_read w1 = w_read w2 →
  (read_all w1 filenames all_records st1).1 =
  (read_all w2 filenames all_records st2).1.
Proof.
  intros Hread. revert all_records st1 st2.
  induction filenames as [|filename rest IH]; intros all_records st1 st2; [done|].
  cbn [read_all]. destruct (endswith filename ".json"); [|apply IH].
  pose proof (process_file_result w1 w2 (path_join DATA_FOLDER filename) st1 st2 Hread)
    as Hfile.
  destruct (process_file w1 _ st1) as [[records1|e1] st1'],
           (process_file w2 _ st2) as [[records2|e2] st2']; simpl in Hfile;
    try done.
  injection Hfile as ->. apply IH.
Qed.

Lemma deduplicate_records_result w1 w2 records st1 st2 :
  (deduplicate_records w1 records st1).1 = (deduplicate_records w2 records st2).1.
Proof.
  unfold deduplicate_records. by destruct (dedup_loop records [] []) as [[u d]|].
Qed.

Lemma deduplicate_records_frame w records st :
  st_table (deduplicate_records w records st).2 = st_table st ∧
  st_batches (deduplicate_records w records st).2 = st_batches st.
Proof.
  unfold deduplicate_records. by destruct (dedup_loop records [] []) as [[u d]|].
Qed.

Lemma write_log_frame w st :
  st_table (write_log w st).2 = st_table st ∧
  st_batches (write_log w st).2 = st_batches st.
Proof. unfold write_log. by destruct (w_log_writable w). Qed.

(** A run submits [submitted w], if anything, and the table changes only
    when the store accepts it. *)
Lemma main_store w st :
  st_batches (main w st).2 = st_batches st ++ option_list (submitted w) ∧
  st_table (main w st).2 =
    match submitted w with
    | Some batch =>
      if w_store_accepts w then store_upsert batch (st_table st) else st_table st
    | None => st_table st
    end.
Proof.
  unfold main, submitted. destruct (w_listdir w) as [filenames|e].
  2: { simpl. by rewrite app_nil_r. }
  pose proof (read_all_result w w filenames [] st (start [] [] ∅) eq_refl) as Hres.
  pose proof (read_all_frame w filenames [] st) as [Ht Hb].
  destruct (read_all w filenames [] st) as [[all_records|e] st1];
    simpl in Hres, Ht, Hb; rewrite <- Hres.
  2: { simpl. by rewrite app_nil_r. }
  destruct (truthy (VList all_records)); cbn [negb].
  2: { simpl. by rewrite app_nil_r. }
  pose proof (deduplicate_records_result w w all_records st1 (start [] [] ∅)) as Hdres.
  pose proof (deduplicate_records_frame w all_records st1) as [Hdt Hdb].
  destruct (deduplicate_records w all_records st1) as [[batch|e] st2];
    simpl in Hdres, Hdt, Hdb; rewrite <- Hdres.
  2: { simpl. by rewrite app_nil_r, Hdt, Hdb. }
  destruct (write_log_frame w (upsert w batch st2)) as [-> ->].
  simpl. rewrite Hdt, Hdb, Ht, Hb. by destruct (w_store_accepts w).
Qed.

Lemma submitted_ext w1 w2 :
  w_listdir w1 = w_listdir w2 → w_read w1 = w_read w2 → submitted w1 = submitted w2.
Proof.
  intros Hdir Hread. unfold submitted. rewrite Hdir.
  destruct (w_listdir w2) as [filenames|]; [|done].
  rewrite (read_all_result w1 w2 filenames [] _ (start [] [] ∅) Hread).
  destruct (read_all w2 filenames [] _).1 as [all_records|]; [|done].
  by rewrite (deduplicate_records_result w1 w2 all_records _ (start [] [] ∅)).
Qed.

End Store.

(** ** The upsert of a deduplicated batch *)
Section Upsert.
Import Upload USpec.

Lemma identified_row_key record :
  identified record →
  hashable (row_key record) = true ∧
  ∀ k, has_id k record = key_eqb (row_key record) k.
Proof.
  intros (record_id & Hget & Hhash). unfold has_id, row_key. rewrite Hget.
  destruct record as [| | | | |d]; try done. simpl in Hget |- *.
  destruct (dict_get d "id"); [|done]. by injection Hget as ->.
Qed.

Lemma distinct_rows_of batch :
  Forall identified batch →
  (∀ k, (length (List.filter (has_id k) batch) ≤ 1)%nat) →
  distinct_rows batch.
Proof.
  induction 1 as [|record rest Hid Hrest IH]; intros Hone; [done|].
  destruct (identified_row_key record Hid) as [Hhash Hhas].
  pose proof (key_eqb_refl _ Hhash) as Hrefl.
  split_and!; [done| |].
  - pose proof (Hone (row_key record)) as Hlen. cbn [List.filter] in Hlen.
    rewrite Hhas, Hrefl in Hlen. cbn [length] in Hlen.
    apply Forall_forall. intros other Hin.
    rewrite Forall_forall in Hrest.
    destruct (identified_row_key other (Hrest _ Hin)) as [_ Hother].
    rewrite <- Hother.
    destruct (has_id (row_key record) other) eqn:Hmatch; [|done].
    assert (In other (List.filter (has_id (row_key record)) rest)) as Hfil.
    { apply List.filter_In. split; [by apply list_elem_of_In|done]. }
    destruct (List.filter (has_id (row_key record)) rest); [done|simpl in Hlen; lia].
  - apply IH. intros k. specialize (Hone k). cbn [List.filter] in Hone.
    destruct (has_id k record); simpl in Hone; lia.
Qed.

Lemma store_upsert_cons record rest table :
  store_upsert (record :: rest) table =
  store_upsert rest (dict_set table (row_key record) record).
Proof. reflexivity. Qed.

Lemma store_upsert_filter_other batch table k :
  Forall (λ record, key_eqb (row_key record) k = false) batch →
  List.filter (row_is k) (store_upsert batch table) = List.filter (row_is k) table.
Proof.
  intros Hother. revert table.
  induction Hother as [|record rest Hrecord _ IH]; intros table; [done|].
  by rewrite store_upsert_cons, IH, filter_dict_set, Hrecord.
Qed.

Lemma dict_set_same table k record k0 rows :
  List.filter (row_is k) table = (k0, record) :: rows →
  dict_set table k record = table.
Proof.
  induction table as [|[k' r'] table IH]; [done|].
  cbn [List.filter dict_set]. unfold row_is at 1. cbn [fst].
  destruct (key_eqb k' k).
  - by intros [= _ -> _].
  - intros Hfil. by rewrite IH.
Qed.

Lemma store_upsert_head batch table :
  distinct_rows batch →
  Forall (λ record, ∃ k0 rows,
            List.filter (row_is (row_key record)) (store_upsert batch table) =
            (k0, record) :: rows) batch.
Proof.
  revert table. induction batch as [|record rest IH]; intros table Hdist;
    [constructor|].
  destruct Hdist as (Hrefl & Hothers & Hrest). constructor.
  - rewrite store_upsert_cons, store_upsert_filter_other by done.
    rewrite filter_dict_set, Hrefl.
    destruct (List.filter (row_is (row_key record)) table) as [|[k0 r0] rows];
      by eexists _, _.
  - rewrite store_upsert_cons. by apply IH.
Qed.

Lemma store_upsert_fixed batch table :
  Forall (λ record, ∃ k0 rows,
            List.filter (row_is (row_key record)) table = (k0, record) :: rows) batch →
  store_upsert batch table = table.
Proof.
  induction 1 as [|record rest (k0 & rows & Hhead) _ IH]; [done|].
  by rewrite store_upsert_cons, (dict_set_same _ _ _ _ _ Hhead).
Qed.

(** Upserting a batch of distinct rows a second time changes nothing. *)
Lemma store_upsert_idem batch table :
  distinct_rows batch →
  store_upsert batch (store_upsert batch table) = store_upsert batch table.
Proof. intros Hdist. by apply store_upsert_fixed, store_upsert_head. Qed.

Lemma keys_distinct_store_upsert batch table :
  keys_distinct table → keys_distinct (store_upsert batch table).
Proof.
  revert table. induction batch as [|record rest IH]; intros table Htable; [done|].
  rewrite store_upsert_cons. apply IH. intros k. specialize (Htable k).
  rewrite filter_dict_set. destruct (key_eqb (row_key record) k); [|done].
  by destruct (List.filter (row_is k) table) as [|[k0 r0] rows].
Qed.

Lemma read_all_from (P : value → Prop) w filenames all_records st out :
  (∀ filepath st' records,
     (process_file w filepath st').1 = Ok records → Forall P records) →
  (read_all w filenames all_records st).1 = Ok out →
  Forall P all_records → Forall P out.
Proof.
  intros Hfile. revert all_records st.
  induction filenames as [|filename rest IH]; intros all_records st Hrun Hacc.
  - by injection Hrun as <-.
  - cbn [read_all] in Hrun.
    destruct (endswith filename ".json"); [|by eapply IH].
    pose proof (Hfile (path_join DATA_FOLDER filename) st) as Hrecords.
    destruct (process_file w _ st) as [[records|e] st1]; [|done].
    eapply IH; [exact Hrun|]. apply Forall_app. split; [done|by apply Hrecords].
Qed.

(** The batch a run submits: canonical records with pairwise different
    identities. *)
Lemma submitted_spec w batch :
  submitted w = Some batch →
  Forall (λ record, ∃ team, canonical_of team record) batch ∧
  distinct_rows batch ∧
  ∀ k, (length (List.filter (has_id k) batch) ≤ 1)%nat.
Proof.
  unfold submitted. destruct (w_listdir w) as [filenames|]; [|done].
  destruct (read_all w filenames [] _).1 as [all_records|] eqn:Hread; [|done].
  destruct (truthy (VList all_records)); [|done].
  destruct (deduplicate_records w all_records _) as [[out|e] st2] eqn:Hdedup; [|done].
  simpl. intros [= ->].
  assert (Hid : Forall identified all_records).
  { unfold deduplicate_records in Hdedup.
    destruct (dedup_loop all_records [] []) as [[u d]|] eqn:Hloop; [|done].
    by eapply dedup_loop_identified. }
  destruct (deduplicate_records_spec w all_records (start [] [] ∅) Hid)
    as (out & dups & Hout & Hsub & Hspec).
  rewrite Hdedup in Hout. injection Hout as -> _.
  assert (Hone : ∀ k, (length (List.filter (has_id k) out) ≤ 1)%nat).
  { intros k. destruct (Hspec k) as [-> _].
    destruct (last (List.filter (has_id k) all_records)); simpl; lia. }
  assert (Hall : Forall (λ record, ∃ team, canonical_of team record) all_records).
  { eapply (read_all_from _ w filenames [] _ all_records); [|exact Hread|constructor].
    intros filepath st' records Hfile. apply process_file_from in Hfile.
    eapply Forall_impl; [exact Hfile|]. intros r (raw & team & _ & _ & Hcan).
    by exists team. }
  rewrite Forall_forall in Hsub, Hall, Hid.
  split_and!; [|apply distinct_rows_of|done].
  - apply Forall_forall. intros r Hr. by apply Hall, Hsub.
  - apply Forall_forall. intros r Hr. by apply Hid, Hsub.
  - done.
Qed.

End Upsert.

(** C9. Two runs of [main] on the same folder listing and file contents
    submit the same deduplicated batch, in which no identity occurs twice;
    once the store has accepted it, submitting it again leaves the table as
    it is, row for row (so the row count does not move); and a table with
    one row per identity stays so. Each run starts as a fresh process on the
    store the previous one left. *)
Theorem C9_idempotent_upsert (w1 w2 : Upload.world)
    (table : list (value * value)) (batches : list (list value))
    (logs : gmap string Upload.summary) :
  Upload.w_listdir w1 = Upload.w_listdir w2 →
  Upload.w_read w1 = Upload.w_read w2 →
  let run1 := (Upload.main w1 (Upload.start table batches logs)).2 in
  let run2 := (Upload.main w2 (Upload.start (Upload.st_table run1)
                 (Upload.st_batches run1) (Upload.st_logs run1))).2 in
  (∃ sent,
     Upload.st_batches run1 = batches ++ sent ∧
     Upload.st_batches run2 = Upload.st_batches run1 ++ sent ∧
     Forall (λ batch, ∀ k, (length (List.filter (USpec.has_id k) batch) ≤ 1)%nat)
       sent) ∧
  (Upload.w_store_accepts w1 = true →
   Upload.st_table run2 = Upload.st_table run1 ∧
   length (Upload.st_table run2) = length (Upload.st_table run1)) ∧
  (USpec.keys_distinct table →
   USpec.keys_distinct (Upload.st_table run1) ∧
   USpec.keys_distinct (Upload.st_table run2)).
Proof.
  intros Hdir Hread run1 run2.
  destruct (main_store w1 (Upload.start table batches logs)) as [Hb1 Ht1].
  destruct (main_store w2 (Upload.start (Upload.st_table run1)
              (Upload.st_batches run1) (Upload.st_logs run1))) as [Hb2 Ht2].
  fold run1 in Hb1, Ht1. fold run2 in Hb2, Ht2.
  rewrite <- (submitted_ext w1 w2 Hdir Hread) in Hb2, Ht2.
  cbn [Upload.start Upload.st_table Upload.st_batches] in Hb1, Ht1, Hb2, Ht2.
  split_and!.
  - exists (option_list (USpec.submitted w1)). split_and!; [done..|].
    destruct (USpec.submitted w1) as [batch|] eqn:Hsub; [|constructor].
    constructor; [|constructor]. by apply submitted_spec in Hsub as (_ & _ & ?).
  - intros Hacc. rewrite Hacc in Ht1.
    assert (Hsame : Upload.st_table run2 = Upload.st_table run1);
      [|by rewrite Hsame].
    rewrite Ht2. destruct (USpec.submitted w1) as [batch|] eqn:Hsub; [|done].
    destruct (Upload.w_store_accepts w2); [|done].
    rewrite Ht1. apply store_upsert_idem. by apply submitted_spec in Hsub as (_ & ? & _).
  - intros Hdist.
    assert (Hrun1 : USpec.keys_distinct (Upload.st_table run1)).
    { rewrite Ht1. destruct (USpec.submitted w1); [|done].
      destruct (Upload.w_store_accepts w1); [|done].
      by apply keys_distinct_store_upsert. }
    split; [done|]. rewrite Ht2. destruct (USpec.submitted w1); [|done].
    destruct (Upload.w_store_accepts w2); [|done].
    by apply keys_distinct_store_upsert.
Qed.

Lemma C9_idempotent_upsert_witness :
  let run1 := (Upload.main USample.folder (Upload.start [] [] ∅)).2 in
  let run2 := (Upload.main USample.folder (Upload.start (Upload.st_table run1)
                 (Upload.st_batches run1) (Upload.st_logs run1))).2 in
  (∃ sent,
     Upload.st_batches run1 = [] ++ sent ∧
     Upload.st_batches run2 = Upload.st_batches run1 ++ sent ∧
     Forall (λ batch, ∀ k, (length (List.filter (USpec.has_id k) batch) ≤ 1)%nat)
       sent) ∧
  (Upload.w_store_accepts USample.folder = true →
   Upload.st_table run2 = Upload.st_table run1 ∧
   length (Upload.st_table run2) = length (Upload.st_table run1)) ∧
  (USpec.keys_distinct [] →
   USpec.keys_distinct (Upload.st_table run1) ∧
   USpec.keys_distinct (Upload.st_table run2)).
Proof.
  apply (C9_idempotent_upsert USample.folder USample.folder [] [] ∅); reflexivity.
Defined.

(** The table after one run and after two runs on the example folder. *)
Example table_after_two_runs :
  let run1 := (Upload.main USample.folder (Upload.start [] [] ∅)).2 in
  let run2 := (Upload.main USample.folder (Upload.start (Upload.st_table run1)
                 (Upload.st_batches run1) (Upload.st_logs run1))).2 in
  Upload.st_table run1 =
    [(VInt 1, VDict [("id", VInt 1); ("team_name", VStr "A"); ("total_points", VInt 10);
                     ("age", VInt 12); ("gender", VStr "m"); ("national_rank", VNone)]);
     (VInt 3, VDict [("id", VInt 3); ("team_name", VStr "A"); ("total_points", VInt 10);
                     ("age", VInt 12); ("gender", VStr "m"); ("national_rank", VNone)])] ∧
  Upload.st_table run2 = Upload.st_table run1.
Proof. by vm_compute. Qed.

(** C10. Every record [process_file] returns is the projection of a raw
    record of that file: a mapping with exactly the fields [id],
    [team_name], [total_points], [age], [gender], [national_rank], the first
    five being the raw record's values for these keys, which it has, and
    [national_rank] its value there or [None] when it has none. This holds
    whether or not the run goes on to submit anything; and whenever [main]
    submits a batch to the store, the same holds of every record of it. *)
Theorem C10_canonical_records (w : Upload.world) (filepath : string)
    (st st0 : Upload.state) (records batch : list value) :
  ((Upload.process_file w filepath st).1 = Ok records →
   Forall (λ record, ∃ raw team,
             Upload.w_read w filepath = Upload.FJson raw ∧
             team ∈ USpec.file_items raw ∧
             USpec.canonical_of team record) records) ∧
  (Upload.st_batches (Upload.main w st0).2 = Upload.st_batches st0 ++ [batch] →
   Forall (λ record, ∃ team, USpec.canonical_of team record) batch).
Proof.
  split.
  - apply process_file_from.
  - intros Hbatch. destruct (main_store w st0) as [Hb _]. rewrite Hb in Hbatch.
    apply app_inv_head in Hbatch.
    destruct (USpec.submitted w) as [sent|] eqn:Hsub; [|done].
    injection Hbatch as ->. by apply submitted_spec in Hsub as (? & _ & _).
Qed.

Lemma C10_canonical_records_witness :
  Forall (λ record, ∃ raw team,
            Upload.w_read USample.good_then_bad "./data/good.json" = Upload.FJson raw ∧
            team ∈ USpec.file_items raw ∧
            USpec.canonical_of team record)
    (USpec.kept [USample.team 9]) ∧
  Forall (λ record, ∃ team, USpec.canonical_of team record)
    (USpec.kept [USample.team 1; USample.team 3]).
Proof.
  split.
  - apply (proj1 (C10_canonical_records USample.good_then_bad "./data/good.json"
                    (Upload.start [] [] ∅) (Upload.start [] [] ∅)
                    (USpec.kept [USample.team 9]) [])).
    reflexivity.
  - apply (proj2 (C10_canonical_records USample.folder "./data/teams.json"
                    (Upload.start [] [] ∅) (Upload.start [] [] ∅) []
                    (USpec.kept [USample.team 1; USample.team 3]))).
    reflexivity.
Defined.

(** In the folder of the first half of the example the run ends with the
    [TypeError] of its second file and submits nothing. *)
Example good_then_bad_submits_nothing :
  (Upload.main USample.good_then_bad (Upload.start [] [] ∅)).1 = Raise TypeError ∧
  Upload.st_batches (Upload.main USample.good_then_bad (Upload.start [] [] ∅)).2 = [].
Proof. split; reflexivity. Qed.

(** ** Further properties of the Fetch Client *)
Section Fetch.
Import Scraper Spec.
Variable w : world.

Lemma retry_loop_failed_step max_retries retry_delay url attempt rest st :
  attempt_fails (w_server w url (sent st url)) →
  retry_loop w max_retries retry_delay url (attempt :: rest) st =
  retry_loop w max_retries retry_delay url rest
    (let st1 := (session_get w url st).2 in
     if attempt <? max_retries - 1
     then emit (ESleep (retry_delay * (attempt + 1))) st1 else st1).
Proof.
  intros Hf. cbn [retry_loop]. unfold session_get, sent in *. cbn [snd].
  destruct (w_server w url _) as [|status [body|]]; try done.
  simpl in Hf. by destruct (Z.eqb_spec status 200).
Qed.

Lemma retry_loop_first_success max_retries retry_delay url body (k : nat) lo st :
  lo + Z.of_nat k < max_retries →
  (∀ j, (j < k)%nat → attempt_fails (w_server w url (sent st url + j))) →
  w_server w url (sent st url + k) = HResponse 200 (Some body) →
  (retry_loop w max_retries retry_delay url (range lo max_retries) st).1 = body ∧
  st_files (retry_loop w max_retries retry_delay url (range lo max_retries) st).2 =
    st_files st ∧
  st_trace (retry_loop w max_retries retry_delay url (range lo max_retries) st).2 =
    st_trace st ++
    (range lo (lo + Z.of_nat k) ≫=
       λ attempt, [EGet url; ESleep (retry_delay * (attempt + 1))]) ++ [EGet url] ∧
  sent (retry_loop w max_retries retry_delay url (range lo max_retries) st).2 url =
    S (sent st url + k).
Proof.
  revert lo st. induction k as [|k IH]; intros lo st Hlt Hfail Hok.
  - rewrite (range_unfold lo max_retries), (range_unfold lo (lo + _)).
    destruct (Z.ltb_spec lo max_retries); [|lia].
    destruct (Z.ltb_spec lo (lo + Z.of_nat 0)); [lia|].
    rewrite Nat.add_0_r in Hok. cbn [retry_loop]. unfold session_get.
    fold (sent st url). rewrite Hok.
    change (200 =? 200) with true. cbn [fst snd st_files st_trace mbind list_bind app].
    split_and!; [done..|]. unfold sent at 1. cbn [st_reqs].
    by rewrite lookup_insert_eq, Nat.add_0_r.
  - rewrite (range_unfold lo max_retries), (range_unfold lo (lo + _)).
    destruct (Z.ltb_spec lo max_retries); [|lia].
    destruct (Z.ltb_spec lo (lo + Z.of_nat (S k))); [|lia].
    rewrite retry_loop_failed_step
      by (specialize (Hfail 0%nat); rewrite Nat.add_0_r in Hfail; apply Hfail; lia).
    destruct (Z.ltb_spec lo (max_retries - 1)); [|lia]. cbn zeta.
    set (st2 := emit _ _).
    assert (Hsent : sent st2 url = S (sent st url)).
    { unfold sent, st2, session_get. simpl. by rewrite lookup_insert_eq. }
    destruct (IH (lo + 1) st2) as (-> & -> & -> & ->).
    + lia.
    + intros j Hj. rewrite Hsent. replace (S (sent st url) + j)%nat
        with (sent st url + S j)%nat by lia. apply Hfail. lia.
    + rewrite Hsent. by replace (S (sent st url) + k)%nat
        with (sent st url + S k)%nat by lia.
    + rewrite Hsent. split_and!; [done|done| |lia].
      cbn [mbind list_bind]. replace (lo + 1 + Z.of_nat k) with (lo + Z.of_nat (S k)) by lia.
      unfold st2, session_get. simpl. by rewrite <- !app_assoc.
Qed.

Lemma gets_of_retry_script retry_delay url k :
  gets_of (retry_script retry_delay url k) = replicate (S k) url.
Proof.
  unfold retry_script, gets_of. rewrite omap_app. simpl.
  assert (Hlen : ∀ l : list Z,
    omap (λ e, match e with EGet u => Some u | _ => None end)
      (l ≫= λ attempt, [EGet url; ESleep (retry_delay * (attempt + 1))]) =
    replicate (length l) url).
  { induction l as [|a l IH]; [done|]. cbn [mbind list_bind]. rewrite omap_app, IH.
    done. }
  rewrite Hlen, length_range, Z.sub_0_r, Nat2Z.id.
  by rewrite <- replicate_S_end.
Qed.

Lemma sleeps_of_retry_script retry_delay url k :
  sleeps_of (retry_script retry_delay url k) =
  (λ i, retry_delay * i) <$> range 1 (Z.of_nat k + 1).
Proof.
  unfold retry_script, sleeps_of. rewrite omap_app. simpl. rewrite app_nil_r.
  assert (Hgen : ∀ (n : nat) lo, Z.to_nat (Z.of_nat k - lo) = n →
    omap (λ e, match e with ESleep secs => Some secs | _ => None end)
      (range lo (Z.of_nat k) ≫=
         λ attempt, [EGet url; ESleep (retry_delay * (attempt + 1))]) =
    (λ i, retry_delay * i) <$> range (lo + 1) (Z.of_nat k + 1)).
  { induction n as [|n IH]; intros lo Hn;
      rewrite (range_unfold (lo + 1) (Z.of_nat k + 1)), (range_unfold lo (Z.of_nat k)).
    - destruct (Z.ltb_spec lo (Z.of_nat k)); [lia|].
      by destruct (Z.ltb_spec (lo + 1) (Z.of_nat k + 1)); [lia|].
    - destruct (Z.ltb_spec lo (Z.of_nat k)); [|lia].
      destruct (Z.ltb_spec (lo + 1) (Z.of_nat k + 1)); [|lia].
      cbn [mbind list_bind]. rewrite omap_app, (IH (lo + 1)) by lia. done. }
  by apply (Hgen (Z.to_nat (Z.of_nat k - 0))).
Qed.

End Fetch.

(** A fetch whose first [k] attempts fail and whose next one is answered
    200 with a JSON body returns that body at once: [k + 1] requests, the
    backoffs [RETRY_DELAY * 1 .. RETRY_DELAY * k] between them, and no
    request or sleep after the success. *)
Theorem fetch_first_success (w : Scraper.world) (url : string) (st : Scraper.state)
    (k : nat) (body : value) :
  Z.of_nat k < Scraper.MAX_RETRIES →
  (∀ j, (j < k)%nat →
        Spec.attempt_fails (Scraper.w_server w url (Spec.sent st url + j))) →
  Scraper.w_server w url (Spec.sent st url + k) = Scraper.HResponse 200 (Some body) →
  (Scraper.fetch_data_with_retry w url st).1 = body ∧
  Scraper.st_files (Scraper.fetch_data_with_retry w url st).2 = Scraper.st_files st ∧
  Scraper.st_trace (Scraper.fetch_data_with_retry w url st).2 =
    Scraper.st_trace st ++
    Scraper.ECall url :: Spec.retry_script Scraper.RETRY_DELAY url k ∧
  Spec.sent (Scraper.fetch_data_with_retry w url st).2 url = S (Spec.sent st url + k) ∧
  Spec.gets_of (Spec.retry_script Scraper.RETRY_DELAY url k) = replicate (S k) url ∧
  Spec.sleeps_of (Spec.retry_script Scraper.RETRY_DELAY url k) =
    (λ i, Scraper.RETRY_DELAY * i) <$> range 1 (Z.of_nat k + 1).
Proof.
  intros Hk Hfail Hok. unfold Scraper.fetch_data_with_retry, Scraper.fetch_with.
  destruct (retry_loop_first_success w Scraper.MAX_RETRIES Scraper.RETRY_DELAY url
              body k 0 (Scraper.emit (Scraper.ECall url) st))
    as (-> & -> & -> & ->); [lia|done|done|].
  split_and!; [done|done| |done|apply gets_of_retry_script|
               apply sleeps_of_retry_script].
  simpl. by rewrite <- app_assoc.
Qed.

Lemma fetch_first_success_witness :
  (Scraper.fetch_data_with_retry Sample.flaky "u" Sample.empty_state).1 =
    VDict [("ok", VBool true)] ∧
  Scraper.st_files (Scraper.fetch_data_with_retry Sample.flaky "u" Sample.empty_state).2 =
    Scraper.st_files Sample.empty_state ∧
  Scraper.st_trace (Scraper.fetch_data_with_retry Sample.flaky "u" Sample.empty_state).2 =
    Scraper.st_trace Sample.empty_state ++
    Scraper.ECall "u" :: Spec.retry_script Scraper.RETRY_DELAY "u" 2 ∧
  Spec.sent (Scraper.fetch_data_with_retry Sample.flaky "u" Sample.empty_state).2 "u" =
    S (Spec.sent Sample.empty_state "u" + 2) ∧
  Spec.gets_of (Spec.retry_script Scraper.RETRY_DELAY "u" 2) = replicate 3 "u" ∧
  Spec.sleeps_of (Spec.retry_script Scraper.RETRY_DELAY "u" 2) =
    (λ i, Scraper.RETRY_DELAY * i) <$> range 1 (Z.of_nat 2 + 1).
Proof.
  apply (fetch_first_success Sample.flaky "u" Sample.empty_state 2
           (VDict [("ok", VBool true)])).
  - reflexivity.
  - intros [|[|j]] Hj; [exact I|by vm_compute|lia].
  - reflexivity.
Defined.

Section FetchBounds.
Import Scraper Spec.
Variables (w : world) (max_retries retry_delay : Z) (url : string).

Lemma retry_loop_bounds (m : nat) lo st :
  Z.to_nat (max_retries - lo) = m →
  ∃ (n : nat) tr,
    st_trace (retry_loop w max_retries retry_delay url (range lo max_retries) st).2 =
      st_trace st ++ tr ∧
    st_files (retry_loop w max_retries retry_delay url (range lo max_retries) st).2 =
      st_files st ∧
    gets_of tr = replicate n url ∧
    (n ≤ m)%nat ∧ ((0 < m)%nat → (1 ≤ n)%nat) ∧
    length (sleeps_of tr) = (n - 1)%nat ∧
    sent (retry_loop w max_retries retry_delay url (range lo max_retries) st).2 url =
      (sent st url + n)%nat.
Proof.
  revert lo st. induction m as [|m IH]; intros lo st Hm; rewrite range_unfold.
  - destruct (Z.ltb_spec lo max_retries); [lia|]. exists 0%nat, [].
    simpl. by rewrite app_nil_r, Nat.add_0_r.
  - destruct (Z.ltb_spec lo max_retries); [|lia].
    cbn [retry_loop]. unfold session_get. fold (sent st url).
    set (st1 := {| st_reqs := _; st_files := _; st_trace := _ |}).
    assert (Hsent1 : sent st1 url = S (sent st url)).
    { unfold sent at 1. subst st1. simpl. by rewrite lookup_insert_eq. }
    assert (Hstop : ∃ (n : nat) tr,
      st_trace st1 = st_trace st ++ tr ∧ st_files st1 = st_files st ∧
      gets_of tr = replicate n url ∧ (n ≤ S m)%nat ∧ ((0 < S m)%nat → (1 ≤ n)%nat) ∧
      length (sleeps_of tr) = (n - 1)%nat ∧ sent st1 url = (sent st url + n)%nat).
    { exists 1%nat, [EGet url]. rewrite Hsent1. split_and!; try done; lia. }
    assert (Hnext : ∃ (n : nat) tr,
      st_trace (retry_loop w max_retries retry_delay url (range (lo + 1) max_retries)
                  (if lo <? max_retries - 1
                   then emit (ESleep (retry_delay * (lo + 1))) st1 else st1)).2 =
        st_trace st ++ tr ∧
      st_files (retry_loop w max_retries retry_delay url (range (lo + 1) max_retries)
                  (if lo <? max_retries - 1
                   then emit (ESleep (retry_delay * (lo + 1))) st1 else st1)).2 =
        st_files st ∧
      gets_of tr = replicate n url ∧ (n ≤ S m)%nat ∧ ((0 < S m)%nat → (1 ≤ n)%nat) ∧
      length (sleeps_of tr) = (n - 1)%nat ∧
      sent (retry_loop w max_retries retry_delay url (range (lo + 1) max_retries)
              (if lo <? max_retries - 1
               then emit (ESleep (retry_delay * (lo + 1))) st1 else st1)).2 url =
        (sent st url + n)%nat).
    { destruct (Z.ltb_spec lo (max_retries - 1)).
      - destruct (IH (lo + 1) (emit (ESleep (retry_delay * (lo + 1))) st1))
          as (n & tr & Htr & Hfl & Hg & Hle & Hpos & Hs & Hsn); [lia|].
        exists (S n), (EGet url :: ESleep (retry_delay * (lo + 1)) :: tr).
        change (gets_of (EGet url :: ESleep (retry_delay * (lo + 1)) :: tr))
          with (url :: gets_of tr).
        change (sleeps_of (EGet url :: ESleep (retry_delay * (lo + 1)) :: tr))
          with (retry_delay * (lo + 1) :: sleeps_of tr).
        rewrite Htr, Hfl, Hg, Hsn. cbn [length]. rewrite Hs.
        change (sent (emit (ESleep (retry_delay * (lo + 1))) st1) url)
          with (sent st1 url). rewrite Hsent1.
        split_and!; try done; try lia. simpl. by rewrite <- !app_assoc.
      - destruct (IH (lo + 1) st1)
          as (n & tr & Htr & Hfl & Hg & Hle & Hpos & Hs & Hsn); [lia|].
        exists (S n), (EGet url :: tr).
        change (gets_of (EGet url :: tr)) with (url :: gets_of tr).
        change (sleeps_of (EGet url :: tr)) with (sleeps_of tr).
        rewrite Htr, Hfl, Hg, Hsn, Hs, Hsent1.
        split_and!; try done; try lia. simpl. by rewrite <- !app_assoc. }
    destruct (w_server w url _) as [|status [body|]]; try done.
    by destruct (status =? 200).
Qed.

End FetchBounds.

(** Whatever the remote API does, one fetch sends between 1 and
    [MAX_RETRIES] requests, all for its own url, sleeps one backoff less than
    it sends requests, advances that url's request count by as much, and
    writes no file. *)
Theorem fetch_bounds (w : Scraper.world) (url : string) (st : Scraper.state) :
  ∃ (n : nat) tr,
    Scraper.st_trace (Scraper.fetch_data_with_retry w url st).2 =
      Scraper.st_trace st ++ Scraper.ECall url :: tr ∧
    Scraper.st_files (Scraper.fetch_data_with_retry w url st).2 = Scraper.st_files st ∧
    Spec.gets_of tr = replicate n url ∧
    (1 ≤ n ≤ Z.to_nat Scraper.MAX_RETRIES)%nat ∧
    length (Spec.sleeps_of tr) = (n - 1)%nat ∧
    Spec.sent (Scraper.fetch_data_with_retry w url st).2 url = (Spec.sent st url + n)%nat.
Proof.
  unfold Scraper.fetch_data_with_retry, Scraper.fetch_with.
  destruct (retry_loop_bounds w Scraper.MAX_RETRIES Scraper.RETRY_DELAY url
              (Z.to_nat Scraper.MAX_RETRIES) 0 (Scraper.emit (Scraper.ECall url) st))
    as (n & tr & -> & -> & Hg & Hle & Hpos & Hs & ->); [done|].
  exists n, tr. simpl. rewrite <- app_assoc. split_and!; try done.
  apply Hpos. vm_compute. lia.
Qed.

(** A page-1 answer of status 200 whose JSON body is falsy (an empty
    object, [null], an empty list, 0) is not retried and is taken for a
    failed fetch: the group ends after that single request, with no file
    written. *)
Theorem falsy_first_page_aborts (w : Scraper.world) (gender : string) (age : Z)
    (st : Scraper.state) (body : value) :
  Scraper.w_server w (Scraper.first_url gender age)
    (Spec.sent st (Scraper.first_url gender age)) = Scraper.HResponse 200 (Some body) →
  truthy body = false →
  (Scraper.scrape_group w gender age st).1 = Ok tt ∧
  Scraper.st_trace (Scraper.scrape_group w gender age st).2 =
    Scraper.st_trace st ++
    [Scraper.ECall (Scraper.first_url gender age);
     Scraper.EGet (Scraper.first_url gender age)] ∧
  Scraper.st_files (Scraper.scrape_group w gender age st).2 = Scraper.st_files st.
Proof.
  intros Hok Hfalsy.
  destruct (retry_loop_first_success w Scraper.MAX_RETRIES Scraper.RETRY_DELAY
              (Scraper.first_url gender age) body 0 0
              (Scraper.emit (Scraper.ECall (Scraper.first_url gender age)) st))
    as (Hbody & Hfiles & Htrace & _);
    [done|intros j Hj; lia|by rewrite Nat.add_0_r|].
  unfold Scraper.scrape_group, Scraper.fetch_data_with_retry, Scraper.fetch_with.
  destruct (Scraper.retry_loop w _ _ _ _ _) as [first_page st1].
  simpl in Hbody, Hfiles, Htrace. subst first_page. rewrite Hfalsy. simpl.
  split_and!; [done| |done]. by rewrite Htrace, <- app_assoc.
Qed.

Lemma falsy_first_page_aborts_witness :
  (Scraper.scrape_group Sample.hollow "m" 10 Sample.empty_state).1 = Ok tt ∧
  Scraper.st_trace (Scraper.scrape_group Sample.hollow "m" 10 Sample.empty_state).2 =
    Scraper.st_trace Sample.empty_state ++
    [Scraper.ECall (Scraper.first_url "m" 10); Scraper.EGet (Scraper.first_url "m" 10)] ∧
  Scraper.st_files (Scraper.scrape_group Sample.hollow "m" 10 Sample.empty_state).2 =
    Scraper.st_files Sample.empty_state.
Proof.
  apply (falsy_first_page_aborts Sample.hollow "m" 10 Sample.empty_state (VDict []));
    reflexivity.
Defined.

(** ** Further properties of the Record Extractor and the Pagination Driver *)
Section Aggregate.
Import Scraper Spec.

Lemma scan_fields_appends d keys all_teams :
  scan_fields d keys all_teams =
  ((scan_fields d keys []).1, all_teams ++ (scan_fields d keys []).2).
Proof.
  revert all_teams. induction keys as [|key rest IH]; intros all_teams.
  - simpl. by rewrite app_nil_r.
  - cbn [scan_fields]. destruct (String.eqb key "team_ranking_data"); [apply IH|].
    destruct (dict_get d key) as [[| | | |[|sample l]|]|];
      try apply IH; try (simpl; by rewrite app_nil_r).
    destruct (is_marked sample); [|apply IH].
    rewrite (IH (all_teams ++ sample :: l)), (IH ([] ++ sample :: l)).
    simpl. by rewrite <- app_assoc.
Qed.

Lemma extract_page_appends data all_teams :
  extract_page data all_teams =
  ((extract_page data []).1, all_teams ++ (extract_page data []).2).
Proof.
  destruct data as [| | |s|l|d]; simpl; rewrite ?app_nil_r; try done.
  - by destruct (str_contains s "team_ranking_data"); simpl; rewrite app_nil_r.
  - by destruct (existsb _ l); simpl; rewrite app_nil_r.
  - destruct (dict_get d "team_ranking_data") as [[| | | |teams|]|];
      try apply scan_fields_appends.
    rewrite (scan_fields_appends d _ (all_teams ++ teams)),
      (scan_fields_appends d _ teams).
    simpl. by rewrite <- app_assoc.
Qed.

Lemma drain_teams w gender age today idx completed all_teams st :
  (drain w gender age today idx completed all_teams st).1 =
  all_teams ++ (completed ≫= λ future, page_teams future.2).
Proof.
  revert idx all_teams st.
  induction completed as [|[url data] rest IH]; intros idx all_teams st.
  - simpl. by rewrite app_nil_r.
  - cbn [drain]. rewrite bind_cons. unfold page_teams at 1. cbn [snd].
    destruct (truthy data); rewrite IH; [|done].
    rewrite extract_page_appends. cbn [snd]. by rewrite <- app_assoc.
Qed.

Lemma run_pool_urls w urls st : (run_pool w urls st).1.*1 = urls.
Proof.
  revert st. induction urls as [|url rest IH]; intros st; [done|].
  cbn [run_pool]. destruct (fetch_data_with_retry w url st) as [data st1].
  specialize (IH st1). destruct (run_pool w rest st1) as [rs st2].
  simpl in *. by f_equal.
Qed.

End Aggregate.

(** The extraction only ever appends to the aggregate: what it adds for
    a page does not depend on what was collected before, and what was
    collected before stays in place, whether or not the scan of the page
    raises. A page that is not a JSON object adds nothing. *)
Theorem extraction_appends (data : value) (all_teams : list value) :
  Scraper.extract_page data all_teams =
    ((Scraper.extract_page data []).1,
     all_teams ++ (Scraper.extract_page data []).2) ∧
  match data with
  | VDict _ => True
  | _ => (Scraper.extract_page data []).2 = [] ∧
         (Scraper.extract_page data []).1 ≠ Ok tt
  end.
Proof.
  split; [apply extract_page_appends|].
  destruct data as [| | |s|l|d]; simpl; try done.
  - by destruct (str_contains s "team_ranking_data").
  - by destruct (existsb _ l).
Qed.

(** When the page-1 fetch of a group gives a truthy page with a usable page
    count, the pool holds one future per page url, and the aggregate saved
    for the group is the concatenation, in completion order, of what each
    fetched page yields (nothing for a page whose fetch failed): as a
    multiset it does not depend on the completion order. *)
Theorem group_aggregate (w : Scraper.world) (gender : string) (age : Z)
    (st : Scraper.state) (bound : Z) :
  let first := Scraper.fetch_data_with_retry w (Scraper.first_url gender age) st in
  let today := Scraper.w_today w gender age in
  let st2 := (Scraper.save_data w first.1
                (Scraper.first_raw_name gender age today) first.2).2 in
  let futures := (Scraper.run_pool w
                    (Scraper.page_url gender age <$> range 1 bound) st2).1 in
  let aggregate := Scraper.as_completed w futures ≫= λ future, Spec.page_teams future.2 in
  truthy first.1 = true →
  Scraper.page_bound first.1 = Ok bound →
  aggregate ≠ [] →
  Scraper.w_writable w (Scraper.team_data_name gender age today) = true →
  futures.*1 = Scraper.page_url gender age <$> range 1 bound ∧
  aggregate ≡ₚ futures ≫= (λ future, Spec.page_teams future.2) ∧
  Scraper.st_files (Scraper.scrape_group w gender age st).2
    !! Scraper.team_data_name gender age today = Some (VList aggregate).
Proof.
  intros first today st2 futures aggregate Htruthy Hbound Hne Hwritable.
  split_and!.
  - apply run_pool_urls.
  - unfold aggregate, Scraper.as_completed.
    by rewrite (merge_sort_Permutation (Scraper.finishes_before w) futures).
  - unfold Scraper.scrape_group. fold today.
    subst futures aggregate st2 first.
    destruct (Scraper.fetch_data_with_retry w _ st) as [first_page st1].
    cbn [fst snd] in *. rewrite Htruthy, Hbound. cbn [negb].
    destruct (Scraper.run_pool w _ _) as [futures st3]. cbn [fst] in *.
    pose proof (drain_teams w gender age today 1 (Scraper.as_completed w futures)
                  [] st3) as Hdrain.
    destruct (Scraper.drain w _ _ _ _ _ _ st3) as [all_teams st4].
    cbn [fst app] in Hdrain. subst all_teams.
    destruct (Scraper.as_completed w futures ≫= _) as [|team teams] eqn:Hagg; [done|].
    cbn [truthy snd]. unfold Scraper.save_data. rewrite Hwritable. simpl.
    by rewrite lookup_insert_eq.
Qed.

Lemma group_aggregate_witness :
  let first := Scraper.fetch_data_with_retry Sample.two_pages
                 (Scraper.first_url "m" 10) Sample.empty_state in
  let today := Scraper.w_today Sample.two_pages "m" 10 in
  let st2 := (Scraper.save_data Sample.two_pages first.1
                (Scraper.first_raw_name "m" 10 today) first.2).2 in
  let futures := (Scraper.run_pool Sample.two_pages
                    (Scraper.page_url "m" 10 <$> range 1 3) st2).1 in
  let aggregate :=
    Scraper.as_completed Sample.two_pages futures ≫= λ future, Spec.page_teams future.2 in
  futures.*1 = Scraper.page_url "m" 10 <$> range 1 3 ∧
  aggregate ≡ₚ futures ≫= (λ future, Spec.page_teams future.2) ∧
  Scraper.st_files (Scraper.scrape_group Sample.two_pages "m" 10 Sample.empty_state).2
    !! Scraper.team_data_name "m" 10 today = Some (VList aggregate).
Proof.
  apply (group_aggregate Sample.two_pages "m" 10 Sample.empty_state 3);
    [reflexivity|reflexivity|by vm_compute|reflexivity].
Defined.

Lemma scrape_group_pool_calls (w : Scraper.world) (gender : string) (age : Z)
    (st : Scraper.state) (bound : Z) :
  truthy (Scraper.fetch_data_with_retry w (Scraper.first_url gender age) st).1 = true →
  Scraper.page_bound
    (Scraper.fetch_data_with_retry w (Scraper.first_url gender age) st).1 = Ok bound →
  (Scraper.scrape_group w gender age st).1 = Ok tt ∧
  Spec.calls_of (Scraper.st_trace (Scraper.scrape_group w gender age st).2) =
    Spec.calls_of (Scraper.st_trace st) ++
    Scraper.first_url gender age :: (Scraper.page_url gender age <$> range 1 bound).
Proof.
  intros Htruthy Hbound. unfold Scraper.scrape_group.
  pose proof (fetch_calls w (Scraper.first_url gender age) st) as [_ Hcalls].
  destruct (Scraper.fetch_data_with_retry w _ st) as [first_page st1].
  cbn [fst snd] in *. rewrite Htruthy, Hbound. cbn [negb].
  set (st2 := (Scraper.save_data w _ _ st1).2).
  pose proof (run_pool_calls w (Scraper.page_url gender age <$> range 1 bound) st2)
    as Hpool.
  destruct (Scraper.run_pool w _ st2) as [futures st3].
  pose proof (drain_calls w gender age (Scraper.w_today w gender age) 1
                (Scraper.as_completed w futures) [] st3) as Hdrain.
  destruct (Scraper.drain w _ _ _ _ _ _ st3) as [all_teams st4].
  split; [done|]. cbn [fst snd] in *.
  destruct (truthy (VList all_teams)); rewrite ?save_data_trace, Hdrain, Hpool;
    subst st2; by rewrite save_data_trace, Hcalls, <- app_assoc.
Qed.

(** A first page that is a non-empty JSON object without pagination
    metadata, or whose metadata has no [total_pages], counts as a
    single-page group: after the synchronous fetch the pool fetches page 1
    and nothing else. *)
Theorem missing_page_count_means_one_page (w : Scraper.world) (gender : string)
    (age : Z) (st : Scraper.state) (d : list (string * value)) :
  (Scraper.fetch_data_with_retry w (Scraper.first_url gender age) st).1 = VDict d →
  d ≠ [] →
  dict_get d "pagination" = None ∨
  (∃ pagination, dict_get d "pagination" = Some (VDict pagination) ∧
                 dict_get pagination "total_pages" = None) →
  (Scraper.scrape_group w gender age st).1 = Ok tt ∧
  Spec.calls_of (Scraper.st_trace (Scraper.scrape_group w gender age st).2) =
    Spec.calls_of (Scraper.st_trace st) ++
    [Scraper.first_url gender age; Scraper.page_url gender age 1].
Proof.
  intros Hfirst Hne Hmissing.
  apply (scrape_group_pool_calls w gender age st 2); rewrite Hfirst.
  - by destruct d.
  - unfold Scraper.page_bound. cbn [Scraper.get_default].
    destruct Hmissing as [->|(pagination & -> & Htotal)]; [done|].
    simpl. by rewrite Htotal.
Qed.

Lemma missing_page_count_means_one_page_witness :
  (Scraper.scrape_group Sample.unpaged "m" 10 Sample.empty_state).1 = Ok tt ∧
  Spec.calls_of (Scraper.st_trace
      (Scraper.scrape_group Sample.unpaged "m" 10 Sample.empty_state).2) =
    Spec.calls_of (Scraper.st_trace Sample.empty_state) ++
    [Scraper.first_url "m" 10; Scraper.page_url "m" 10 1].
Proof.
  apply (missing_page_count_means_one_page Sample.unpaged "m" 10 Sample.empty_state
           [("team_ranking_data", VList [VDict [("id", VInt 1)]])]);
    [reflexivity|discriminate|by left].
Defined.

(** A truthy first page from which no page count can be read (it is not a
    JSON object, its [pagination] is not an object, or its [total_pages] is
    not an integer) makes [scrape_group] raise after the page-1 dump: the
    exception leaves the loop over the groups, so no later group is
    fetched. *)
Theorem unreadable_page_count_stops_run (w : Scraper.world) (gender : string)
    (age : Z) (rest : list (string * Z)) (st : Scraper.state) (e : exn) :
  let first := Scraper.fetch_data_with_retry w (Scraper.first_url gender age) st in
  let st2 := (Scraper.save_data w first.1
                (Scraper.first_raw_name gender age (Scraper.w_today w gender age))
                first.2).2 in
  truthy first.1 = true →
  Scraper.page_bound first.1 = Raise e →
  Scraper.scrape_group w gender age st = (Raise e, st2) ∧
  Scraper.run_groups w ((gender, age) :: rest) st = (Raise e, st2) ∧
  Spec.calls_of (Scraper.st_trace st2) =
    Spec.calls_of (Scraper.st_trace st) ++ [Scraper.first_url gender age].
Proof.
  intros first st2 Htruthy Hbound.
  assert (Hsg : Scraper.scrape_group w gender age st = (Raise e, st2)).
  { unfold Scraper.scrape_group. subst st2 first.
    destruct (Scraper.fetch_data_with_retry w _ st) as [first_page st1].
    cbn [fst snd] in *. by rewrite Htruthy, Hbound. }
  split_and!; [done| |].
  - cbn [Scraper.run_groups]. by rewrite Hsg.
  - subst st2. rewrite save_data_trace. apply fetch_calls.
Qed.

Lemma unreadable_page_count_stops_run_witness :
  let first := Scraper.fetch_data_with_retry Sample.array_api
                 (Scraper.first_url "m" 10) Sample.empty_state in
  let st2 := (Scraper.save_data Sample.array_api first.1
                (Scraper.first_raw_name "m" 10 (Scraper.w_today Sample.array_api "m" 10))
                first.2).2 in
  Scraper.scrape_group Sample.array_api "m" 10 Sample.empty_state =
    (Raise AttributeError, st2) ∧
  Scraper.run_groups Sample.array_api (("m", 10) :: [("m", 11); ("f", 10)])
    Sample.empty_state = (Raise AttributeError, st2) ∧
  Spec.calls_of (Scraper.st_trace st2) =
    Spec.calls_of (Scraper.st_trace Sample.empty_state) ++ [Scraper.first_url "m" 10].
Proof.
  apply (unreadable_page_count_stops_run Sample.array_api "m" 10
           [("m", 11); ("f", 10)] Sample.empty_state AttributeError); reflexivity.
Defined.

Lemma scrape_group_down (w : Scraper.world) (gender : string) (age : Z)
    (st : Scraper.state) :
  (∀ url k, Spec.attempt_fails (Scraper.w_server w url k)) →
  ∃ st1,
    Scraper.scrape_group w gender age st = (Ok tt, st1) ∧
    Scraper.st_files st1 = Scraper.st_files st ∧
    Scraper.st_trace st1 =
      Scraper.st_trace st ++
      Scraper.ECall (Scraper.first_url gender age) ::
      Spec.backoff_script Scraper.MAX_RETRIES Scraper.RETRY_DELAY
        (Scraper.first_url gender age).
Proof.
  intros Hdown.
  destruct (fetch_with_all_fail w (Scraper.first_url gender age)
              (Hdown (Scraper.first_url gender age))
              Scraper.MAX_RETRIES Scraper.RETRY_DELAY st) as (Hnone & Hfiles & Htrace).
  fold (Scraper.fetch_data_with_retry w (Scraper.first_url gender age) st)
    in Hnone, Hfiles, Htrace.
  exists (Scraper.fetch_data_with_retry w (Scraper.first_url gender age) st).2.
  split; [|done]. unfold Scraper.scrape_group.
  destruct (Scraper.fetch_data_with_retry w _ st) as [first_page st1].
  simpl in Hnone. by subst first_page.
Qed.

Lemma run_groups_down (w : Scraper.world) (groups : list (string * Z))
    (st : Scraper.state) :
  (∀ url k, Spec.attempt_fails (Scraper.w_server w url k)) →
  (Scraper.run_groups w groups st).1 = Ok tt ∧
  Spec.calls_of (Scraper.st_trace (Scraper.run_groups w groups st).2) =
    Spec.calls_of (Scraper.st_trace st) ++
    ((λ group, Scraper.first_url group.1 group.2) <$> groups) ∧
  Scraper.st_files (Scraper.run_groups w groups st).2 = Scraper.st_files st.
Proof.
  intros Hdown. revert st. induction groups as [|[gender age] rest IH]; intros st.
  - simpl. by rewrite app_nil_r.
  - destruct (scrape_group_down w gender age st Hdown) as (st1 & Hsg & Hfiles & Htrace).
    cbn [Scraper.run_groups]. rewrite Hsg.
    destruct (IH (Scraper.emit Scraper.EPause st1)) as (-> & -> & ->).
    cbn [Scraper.emit Scraper.st_trace Scraper.st_files]. rewrite Htrace, Hfiles.
    split_and!; [done| |done].
    rewrite !calls_of_snoc, app_nil_r. unfold Spec.calls_of. rewrite omap_app.
    cbn [omap list_omap].
    change (omap _ (Spec.backoff_script Scraper.MAX_RETRIES Scraper.RETRY_DELAY
                      (Scraper.first_url gender age))) with (@nil string).
    by rewrite <- !app_assoc.
Qed.

(** With the remote API failing every request, the run over any list of
    groups ends normally: one call of the Fetch Client per group, in order,
    [MAX_RETRIES] requests each, and no file written. *)
Theorem outage_run (w : Scraper.world) (groups : list (string * Z))
    (st : Scraper.state) :
  (∀ url k, Spec.attempt_fails (Scraper.w_server w url k)) →
  (Scraper.run_groups w groups st).1 = Ok tt ∧
  Spec.calls_of (Scraper.st_trace (Scraper.run_groups w groups st).2) =
    Spec.calls_of (Scraper.st_trace st) ++
    ((λ group, Scraper.first_url group.1 group.2) <$> groups) ∧
  Z.of_nat (length (Spec.gets_of (Scraper.st_trace (Scraper.run_groups w groups st).2))) =
    Z.of_nat (length (Spec.gets_of (Scraper.st_trace st))) +
    Scraper.MAX_RETRIES * Z.of_nat (length groups) ∧
  Scraper.st_files (Scraper.run_groups w groups st).2 = Scraper.st_files st.
Proof.
  intros Hdown.
  destruct (run_groups_down w groups st Hdown) as (Hok & Hcalls & Hfiles).
  split_and!; [done..| |done]. clear Hok Hcalls Hfiles. revert st.
  induction groups as [|[gender age] rest IH]; intros st; [simpl; lia|].
  destruct (scrape_group_down w gender age st Hdown) as (st1 & Hsg & _ & Htrace).
  cbn [Scraper.run_groups]. rewrite Hsg, IH.
  cbn [Scraper.emit Scraper.st_trace]. rewrite Htrace.
  unfold Spec.gets_of. rewrite !omap_app, !length_app. cbn [omap list_omap].
  change (omap _ (Spec.backoff_script Scraper.MAX_RETRIES Scraper.RETRY_DELAY
                    (Scraper.first_url gender age)))
    with (replicate 3 (Scraper.first_url gender age)).
  unfold Scraper.MAX_RETRIES. simpl length. lia.
Qed.

Lemma outage_run_witness :
  (Scraper.run_groups Sample.down Scraper.GROUPS Sample.empty_state).1 = Ok tt ∧
  Spec.calls_of (Scraper.st_trace
      (Scraper.run_groups Sample.down Scraper.GROUPS Sample.empty_state).2) =
    Spec.calls_of (Scraper.st_trace Sample.empty_state) ++
    ((λ group, Scraper.first_url group.1 group.2) <$> Scraper.GROUPS) ∧
  Z.of_nat (length (Spec.gets_of (Scraper.st_trace
      (Scraper.run_groups Sample.down Scraper.GROUPS Sample.empty_state).2))) =
    Z.of_nat (length (Spec.gets_of (Scraper.st_trace Sample.empty_state))) +
    Scraper.MAX_RETRIES * Z.of_nat (length Scraper.GROUPS) ∧
  Scraper.st_files (Scraper.run_groups Sample.down Scraper.GROUPS Sample.empty_state).2 =
    Scraper.st_files Sample.empty_state.
Proof.
  apply (outage_run Sample.down Scraper.GROUPS Sample.empty_state).
  intros url k. exact I.
Defined.

(** Against a remote API that fails every request, the whole run still
    ends normally: one call of the Fetch Client for each of the 20 groups
    (m then f, ages 10 to 19), and the two marker files as the only files
    written. *)
Theorem outage_main (w : Scraper.world) (st : Scraper.state) :
  (∀ url k, Spec.attempt_fails (Scraper.w_server w url k)) →
  Scraper.w_writable w "scraper_started.txt" = true →
  Scraper.w_writable w "scraper_completed.txt" = true →
  Spec.calls_of (Scraper.st_trace (Scraper.main w st)) =
    Spec.calls_of (Scraper.st_trace st) ++
    ((λ group, Scraper.first_url group.1 group.2) <$> Scraper.GROUPS) ∧
  length Scraper.GROUPS = 20%nat ∧
  Scraper.st_files (Scraper.main w st) =
    <["scraper_completed.txt" := VStr "Scraper completed at"]>
      (<["scraper_started.txt" := VStr "Scraper started at"]> (Scraper.st_files st)).
Proof.
  intros Hdown Hstart Hdone. unfold Scraper.main, Scraper.write_marker.
  rewrite Hstart, Hdone.
  set (st1 := {| Scraper.st_reqs := _; Scraper.st_files := _; Scraper.st_trace := _ |}).
  destruct (run_groups_down w Scraper.GROUPS st1 Hdown) as (Hok & Hcalls & Hfiles).
  destruct (Scraper.run_groups w Scraper.GROUPS st1) as [[[]|e] st2]; [|done].
  cbn [fst snd Scraper.st_trace Scraper.st_files] in *.
  by rewrite Hcalls, Hfiles.
Qed.

Lemma outage_main_witness :
  Spec.calls_of (Scraper.st_trace (Scraper.main Sample.down Sample.empty_state)) =
    Spec.calls_of (Scraper.st_trace Sample.empty_state) ++
    ((λ group, Scraper.first_url group.1 group.2) <$> Scraper.GROUPS) ∧
  length Scraper.GROUPS = 20%nat ∧
  Scraper.st_files (Scraper.main Sample.down Sample.empty_state) =
    <["scraper_completed.txt" := VStr "Scraper completed at"]>
      (<["scraper_started.txt" := VStr "Scraper started at"]>
         (Scraper.st_files Sample.empty_state)).
Proof.
  apply (outage_main Sample.down Sample.empty_state); [|reflexivity|reflexivity].
  intros url k. exact I.
Defined.

(** ** Further properties of the Ingestion Pipeline *)
Section Ingestion.
Import Upload USpec.

Lemma same_outside_refl st : same_outside st st.
Proof. by repeat split. Qed.

Lemma same_outside_trans st1 st2 st3 :
  same_outside st1 st2 → same_outside st2 st3 → same_outside st1 st3.
Proof. intros (? & ? & ? & ?) (? & ? & ? & ?). repeat split; congruence. Qed.

Lemma project_all_outside teams records st :
  same_outside st (project_all teams records st).2.
Proof.
  revert records st. induction teams as [|team rest IH]; intros records st;
    [apply same_outside_refl|].
  cbn [project_all]. destruct (project team) as [record|[key| | | |]];
    try apply same_outside_refl; [apply IH|].
  destruct (Scraper.get_default team "id" (VStr "unknown")) as [team_id|];
    [|apply same_outside_refl].
  eapply same_outside_trans; [|apply IH]. by repeat split.
Qed.

Lemma process_file_outside w filepath st :
  same_outside st (process_file w filepath st).2.
Proof.
  unfold process_file. destruct (w_read w filepath) as [msg|raw];
    [by repeat split|].
  destruct (match raw with VList _ => _ | _ => _ end) as [teams|];
    [|by repeat split].
  destruct (iter teams); [apply project_all_outside|apply same_outside_refl].
Qed.

Lemma read_all_outside w filenames all_records st :
  same_outside st (read_all w filenames all_records st).2.
Proof.
  revert all_records st.
  induction filenames as [|filename rest IH]; intros all_records st;
    [apply same_outside_refl|].
  cbn [read_all]. destruct (endswith filename ".json"); [|apply IH].
  pose proof (process_file_outside w (path_join DATA_FOLDER filename) st) as Hfile.
  destruct (process_file w _ st) as [[records|e] st1]; [|done].
  eapply same_outside_trans; [exact Hfile|apply IH].
Qed.

Lemma deduplicate_records_outside w records st :
  same_outside st (deduplicate_records w records st).2.
Proof.
  unfold deduplicate_records.
  destruct (dedup_loop records [] []) as [[u d]|]; by repeat split.
Qed.

Lemma kept_skipped_length teams :
  Forall (λ team, is_mapping team = true) teams →
  (length (kept teams) + length (skipped teams) = length teams)%nat.
Proof.
  induction 1 as [|team rest Hteam _ IH]; [done|].
  destruct team as [| | | | |d]; try done. unfold kept, skipped in *.
  cbn [omap list_omap length].
  fold (omap (M := list)
          (λ team, match project team with Ok r => Some r | Raise _ => None end)).
  fold (omap (M := list)
          (λ team, match project team with
                   | Raise (KeyError key) => Some (skip_entry team key)
                   | _ => None
                   end)).
  destruct (project_mapping d) as [[record ->]|[key ->]]; simpl; lia.
Qed.

Lemma project_all_app pre rest records st :
  Forall (λ team, is_mapping team = true) pre →
  project_all (pre ++ rest) records st =
  project_all rest (records ++ kept pre) (with_skipped_teams (skipped pre) st).
Proof.
  intros Hpre. revert records st.
  induction Hpre as [|team pre Hteam _ IH]; intros records st.
  - simpl. by rewrite app_nil_r, with_skipped_teams_nil.
  - destruct team as [| | | | |d]; try done.
    cbn [app project_all]. unfold kept, skipped. cbn [omap list_omap].
    fold (omap (M := list)
            (λ team, match project team with Ok r => Some r | Raise _ => None end)).
    destruct (project_mapping d) as [[record Hp]|[key Hp]]; rewrite Hp.
    + rewrite IH. by rewrite <- app_assoc.
    + cbn [Scraper.get_default]. by rewrite IH, with_skipped_teams_cons.
Qed.

Lemma dedup_loop_app pre rest unique_records duplicates :
  dedup_loop (pre ++ rest) unique_records duplicates =
  dedup_loop pre unique_records duplicates ≫= λ acc, dedup_loop rest acc.1 acc.2.
Proof.
  revert unique_records duplicates.
  induction pre as [|record pre IH]; intros unique_records duplicates; [done|].
  cbn [app dedup_loop]. destruct (getitem record "id") as [record_id|]; [|done].
  cbn [mbind outcome_bind]. destruct (hashable record_id); [|done]. apply IH.
Qed.

Lemma dict_set_fresh m k record :
  dict_mem m k = false → dict_set m k record = m ++ [(k, record)].
Proof.
  unfold dict_mem. induction m as [|[k' r'] m IH]; [done|].
  cbn [existsb dict_set fst]. destruct (key_eqb k' k); [done|].
  intros Hm. cbn [orb] in Hm. by rewrite IH.
Qed.

Lemma dedup_loop_distinct rest unique_records duplicates :
  Forall identified rest →
  distinct_rows rest →
  Forall (λ record, dict_mem unique_records (row_key record) = false) rest →
  dedup_loop rest unique_records duplicates =
    Ok (unique_records ++ ((λ record, (row_key record, record)) <$> rest), duplicates).
Proof.
  intros Hid. revert unique_records.
  induction Hid as [|record rest Hrecord _ IH]; intros unique_records Hdist Hfresh.
  - simpl. by rewrite app_nil_r.
  - destruct Hdist as (_ & Hothers & Hdist).
    apply Forall_cons in Hfresh as [Hnew Hfresh].
    assert (Hkey : getitem record "id" = Ok (row_key record) ∧
                   hashable (row_key record) = true).
    { destruct Hrecord as (record_id & Hget & Hhash). unfold row_key.
      destruct record as [| | | | |d]; try done. simpl in Hget |- *.
      destruct (dict_get d "id"); [|done]. by injection Hget as ->. }
    destruct Hkey as [Hget Hhash].
    cbn [dedup_loop]. rewrite Hget. cbn [mbind outcome_bind]. rewrite Hhash, Hnew.
    rewrite (dict_set_fresh _ _ _ Hnew), IH; [|done|].
    + by rewrite <- app_assoc.
    + apply Forall_forall. intros other Hin.
      rewrite Forall_forall in Hfresh, Hothers.
      unfold dict_mem in *. rewrite existsb_app, (Hfresh _ Hin). simpl.
      by rewrite key_eqb_sym, (Hothers _ Hin).
Qed.

Lemma add_duplicate_teams_nil st : add_duplicate_teams [] st = st.
Proof. destruct st. unfold add_duplicate_teams. simpl. by rewrite app_nil_r. Qed.

Lemma deduplicate_records_distinct w records st :
  Forall identified records →
  distinct_rows records →
  deduplicate_records w records st = (Ok records, st).
Proof.
  intros Hid Hdist. unfold deduplicate_records.
  rewrite (dedup_loop_distinct records [] [] Hid Hdist)
    by (apply Forall_forall; by intros).
  cbn [app]. change (set_iter w []) with (@nil value).
  rewrite add_duplicate_teams_nil. do 2 f_equal.
  rewrite <- list_fmap_compose. apply list_fmap_id.
Qed.

(** [main] reads the files whose name ends in [.json] and no other: the
    other names of the folder listing change nothing. *)
Theorem only_json_names_are_read w filenames all_records st :
  read_all w filenames all_records st =
  read_all w (List.filter (λ filename, endswith filename ".json") filenames)
    all_records st.
Proof.
  revert all_records st.
  induction filenames as [|filename rest IH]; intros all_records st; [done|].
  cbn [read_all List.filter].
  destruct (endswith filename ".json") eqn:Hjson; [|apply IH].
  cbn [read_all]. rewrite Hjson.
  destruct (process_file w _ st) as [[records|e] st1]; [apply IH|done].
Qed.

(** The shape of a run that submits a batch, and of one that does not. *)
Lemma main_submitted w st batch :
  submitted w = Some batch →
  ∃ st2, main w st = write_log w (upsert w batch st2) ∧ same_outside st st2.
Proof.
  unfold submitted, main. destruct (w_listdir w) as [filenames|]; [|done].
  pose proof (read_all_result w w filenames [] st (start [] [] ∅) eq_refl) as Hres.
  pose proof (read_all_outside w filenames [] st) as Hout1.
  destruct (read_all w filenames [] st) as [[all_records|e] st1];
    simpl in Hres; rewrite <- Hres; [|done].
  destruct (truthy (VList all_records)); [|done]. cbn [negb].
  pose proof (deduplicate_records_result w w all_records st1 (start [] [] ∅)) as Hdres.
  pose proof (deduplicate_records_outside w all_records st1) as Hout2.
  destruct (deduplicate_records w all_records st1) as [[out|e] st2];
    simpl in Hdres; rewrite <- Hdres; [|done].
  intros [= ->]. exists st2. split; [done|by eapply same_outside_trans].
Qed.

End Ingestion.

(** On a mapping, the projection raises [KeyError] for the first of [id],
    [team_name], [total_points], [age], [gender] that is absent, and for no
    other reason: with all five present it gives the canonical record,
    whether or not [national_rank] is there. *)
Theorem project_first_missing (d : list (string * value)) :
  match USpec.first_missing d with
  | Some key => Upload.project (VDict d) = Raise (KeyError key)
  | None => ∃ record, Upload.project (VDict d) = Ok record ∧
                      USpec.canonical_of (VDict d) record
  end.
Proof.
  unfold USpec.first_missing, USpec.REQUIRED, dict_has, Upload.project.
  cbn [List.find getitem Scraper.get_default mbind Upload.outcome_bind].
  destruct (dict_get d "id") as [id|] eqn:Hid; [|done].
  destruct (dict_get d "team_name") as [team_name|] eqn:Hname; [|done].
  destruct (dict_get d "total_points") as [total_points|] eqn:Hpoints; [|done].
  destruct (dict_get d "age") as [age|] eqn:Hage; [|done].
  destruct (dict_get d "gender") as [gender|] eqn:Hgender; [|done].
  cbn [negb mbind Upload.outcome_bind mret Upload.outcome_ret].
  eexists. split; [done|]. by exists d, id, team_name, total_points, age, gender.
Qed.

(** In a file that is a list of mappings, or an object whose
    [team_ranking_data] is one, no raw record is lost silently:
    [process_file] returns normally and every item is either projected into
    the returned records or entered in [skipped_teams]. *)
Theorem every_item_kept_or_skipped (w : Upload.world) (filepath : string)
    (st : Upload.state) (raw : value) (items : list value) :
  Upload.w_read w filepath = Upload.FJson raw →
  raw = VList items ∨
    (∃ d, raw = VDict d ∧ dict_get d "team_ranking_data" = Some (VList items)) →
  Forall (λ item, USpec.is_mapping item = true) items →
  ∃ records st',
    Upload.process_file w filepath st = (Ok records, st') ∧
    (length records + length (Upload.skipped_teams st') =
     length (Upload.skipped_teams st) + length items)%nat ∧
    USpec.same_outside st st'.
Proof.
  intros Hread Hshape Hmap.
  assert (Hfile : Upload.process_file w filepath st = Upload.project_all items [] st).
  { unfold Upload.process_file. rewrite Hread.
    destruct Hshape as [->|(d & -> & Hget)]; [done|]. by rewrite Hget. }
  rewrite Hfile, project_all_mappings by done.
  eexists _, _. split; [done|]. split; [|by repeat split].
  cbn [app Upload.skipped_teams USpec.with_skipped_teams]. rewrite length_app.
  pose proof (kept_skipped_length items Hmap). lia.
Qed.

Lemma every_item_kept_or_skipped_witness :
  ∃ records st',
    Upload.process_file USample.folder "./data/teams.json" (Upload.start [] [] ∅) =
      (Ok records, st') ∧
    (length records + length (Upload.skipped_teams st') =
     length (Upload.skipped_teams (Upload.start [] [] ∅)) +
     length [USample.team 1; USample.nameless; USample.team 3])%nat ∧
    USpec.same_outside (Upload.start [] [] ∅) st'.
Proof.
  apply (every_item_kept_or_skipped USample.folder "./data/teams.json"
           (Upload.start [] [] ∅)
           (VList [USample.team 1; USample.nameless; USample.team 3]));
    [reflexivity|by left|repeat constructor].
Defined.

(** An item that is not a mapping (a number, a string, a list, null) is
    not skipped but fatal: after the mappings before it are processed,
    [process_file] raises [TypeError], which [process_file] does not catch. *)
Theorem non_mapping_item_raises (w : Upload.world) (filepath : string)
    (st : Upload.state) (raw : value) (pre post : list value) (item : value) :
  Upload.w_read w filepath = Upload.FJson raw →
  USpec.file_items raw = pre ++ item :: post →
  Forall (λ team, USpec.is_mapping team = true) pre →
  USpec.is_mapping item = false →
  Upload.process_file w filepath st =
    (Raise TypeError, USpec.with_skipped_teams (USpec.skipped pre) st).
Proof.
  intros Hread Hitems Hpre Hitem.
  rewrite (process_file_items w filepath raw st Hread)
    by (rewrite Hitems; by destruct pre).
  rewrite Hitems, project_all_app by done. cbn [Upload.project_all].
  by destruct item.
Qed.

Lemma non_mapping_item_raises_witness :
  Upload.process_file USample.folder_with_number "./data/numbers.json"
    (Upload.start [] [] ∅) =
  (Raise TypeError,
   USpec.with_skipped_teams (USpec.skipped [USample.team 1]) (Upload.start [] [] ∅)).
Proof.
  apply (non_mapping_item_raises USample.folder_with_number "./data/numbers.json"
           (Upload.start [] [] ∅)
           (VList [USample.team 1; VInt 7; USample.team 3])
           [USample.team 1] [USample.team 3] (VInt 7));
    [reflexivity|reflexivity|repeat constructor|reflexivity].
Defined.

(** An exception while the files are read ends [main] with that
    exception: nothing is submitted to the store, the table is untouched
    and no summary is written. *)
Theorem read_failure_ends_run (w : Upload.world) (st : Upload.state)
    (filenames : list string) (e : exn) :
  Upload.w_listdir w = Ok filenames →
  (Upload.read_all w filenames [] st).1 = Raise e →
  (Upload.main w st).1 = Raise e ∧ USpec.same_outside st (Upload.main w st).2.
Proof.
  intros Hdir Hread. unfold Upload.main. rewrite Hdir.
  pose proof (read_all_outside w filenames [] st) as Hout.
  destruct (Upload.read_all w filenames [] st) as [[all_records|e'] st1];
    simpl in Hread; [done|]. by injection Hread as ->.
Qed.

Lemma read_failure_ends_run_witness :
  (Upload.main USample.folder_with_number (Upload.start [] [] ∅)).1 = Raise TypeError ∧
  USpec.same_outside (Upload.start [] [] ∅)
    (Upload.main USample.folder_with_number (Upload.start [] [] ∅)).2.
Proof.
  apply (read_failure_ends_run USample.folder_with_number (Upload.start [] [] ∅)
           ["numbers.json"] TypeError); reflexivity.
Defined.

(** [deduplicate_records] returns exactly when every record has an [id]
    that can be a dict key; otherwise it raises ([KeyError] for a missing
    [id], [TypeError] for a list or an object as [id]) and reports no
    duplicate. *)
Theorem dedup_returns_iff_identified (w : Upload.world) (records : list value)
    (st : Upload.state) :
  (Forall USpec.identified records ∧
   ∃ out dups, Upload.deduplicate_records w records st =
                 (Ok out, Upload.add_duplicate_teams dups st)) ∨
  (¬ Forall USpec.identified records ∧
   ∃ e, Upload.deduplicate_records w records st = (Raise e, st)).
Proof.
  unfold Upload.deduplicate_records.
  destruct (Upload.dedup_loop records [] []) as [[u d]|e] eqn:Hloop.
  - left. split; [by eapply dedup_loop_identified|by eexists _, _].
  - right. split; [|by eexists].
    intros Hid. destruct (dedup_loop_inv records [] [] [] dedup_inv_nil Hid)
      as (u & d & Hok & _). congruence.
Qed.

(** A record whose [id] is a list or an object, met after records with
    usable identities, makes [deduplicate_records] raise [TypeError]. *)
Theorem unhashable_id_raises (w : Upload.world) (pre post : list value)
    (record record_id : value) (st : Upload.state) :
  Forall USpec.identified pre →
  getitem record "id" = Ok record_id →
  hashable record_id = false →
  Upload.deduplicate_records w (pre ++ record :: post) st = (Raise TypeError, st).
Proof.
  intros Hpre Hget Hhash. unfold Upload.deduplicate_records.
  rewrite dedup_loop_app.
  destruct (dedup_loop_inv pre [] [] [] dedup_inv_nil Hpre) as (u & d & -> & _).
  unfold mbind at 1, Upload.outcome_bind at 1. cbn [Upload.dedup_loop fst snd].
  rewrite Hget. unfold mbind, Upload.outcome_bind. by rewrite Hhash.
Qed.

Lemma unhashable_id_raises_witness :
  Upload.deduplicate_records USample.folder
    ([Sample.tagged 1 "a"] ++ VDict [("id", VList [VInt 1])] :: [Sample.tagged 2 "b"])
    (Upload.start [] [] ∅) = (Raise TypeError, Upload.start [] [] ∅).
Proof.
  apply (unhashable_id_raises USample.folder
           [Sample.tagged 1 "a"] [Sample.tagged 2 "b"]
           (VDict [("id", VList [VInt 1])]) (VList [VInt 1]) (Upload.start [] [] ∅));
    [|reflexivity|reflexivity].
  apply List.Forall_cons; [eexists; split; reflexivity|apply List.Forall_nil].
Defined.

(** On records with usable, pairwise different identities,
    [deduplicate_records] is the identity: same records, same order, nothing
    reported. *)
Theorem dedup_keeps_distinct_records (w : Upload.world) (records : list value)
    (st : Upload.state) :
  Forall USpec.identified records →
  USpec.distinct_rows records →
  Upload.deduplicate_records w records st = (Ok records, st).
Proof.
  intros Hid Hdist. unfold Upload.deduplicate_records.
  rewrite (dedup_loop_distinct records [] [] Hid Hdist)
    by (apply Forall_forall; by intros).
  cbn [app]. change (Upload.set_iter w []) with (@nil value).
  rewrite add_duplicate_teams_nil. do 2 f_equal.
  rewrite <- list_fmap_compose. apply list_fmap_id.
Qed.

Lemma dedup_keeps_distinct_records_witness :
  Upload.deduplicate_records USample.folder [Sample.tagged 1 "a"; Sample.tagged 2 "b"]
    (Upload.start [] [] ∅) =
  (Ok [Sample.tagged 1 "a"; Sample.tagged 2 "b"], Upload.start [] [] ∅).
Proof.
  apply (dedup_keeps_distinct_records USample.folder
           [Sample.tagged 1 "a"; Sample.tagged 2 "b"] (Upload.start [] [] ∅)).
  - repeat (apply List.Forall_cons; [eexists; split; reflexivity|]).
    apply List.Forall_nil.
  - repeat split; repeat (apply List.Forall_cons; [reflexivity|]);
      apply List.Forall_nil.
Defined.

(** Deduplicating a deduplicated batch changes nothing and reports
    nothing more. *)
Theorem dedup_idempotent (w : Upload.world) (records out : list value)
    (st st' : Upload.state) :
  Upload.deduplicate_records w records st = (Ok out, st') →
  Upload.deduplicate_records w out st' = (Ok out, st').
Proof.
  intros Hrun.
  assert (Hid : Forall USpec.identified records).
  { unfold Upload.deduplicate_records in Hrun.
    destruct (Upload.dedup_loop records [] []) as [[u d]|] eqn:Hloop; [|done].
    by eapply dedup_loop_identified. }
  destruct (deduplicate_records_spec w records st Hid)
    as (out' & dups & Hout & Hsub & Hspec).
  rewrite Hrun in Hout. injection Hout as <- _.
  assert (Hidout : Forall USpec.identified out).
  { rewrite Forall_forall in Hsub, Hid |- *. intros r Hr. by apply Hid, Hsub. }
  apply deduplicate_records_distinct; [done|].
  apply distinct_rows_of; [done|]. intros k. destruct (Hspec k) as [-> _].
  destruct (last (List.filter (USpec.has_id k) records)); simpl; lia.
Qed.

Lemma dedup_idempotent_witness :
  Upload.deduplicate_records USample.folder [Sample.tagged 1 "c"; Sample.tagged 2 "b"]
    (Upload.add_duplicate_teams [VInt 1] (Upload.start [] [] ∅)) =
  (Ok [Sample.tagged 1 "c"; Sample.tagged 2 "b"],
   Upload.add_duplicate_teams [VInt 1] (Upload.start [] [] ∅)).
Proof.
  apply (dedup_idempotent USample.folder Sample.three_records
           [Sample.tagged 1 "c"; Sample.tagged 2 "b"] (Upload.start [] [] ∅)).
  reflexivity.
Defined.

(** A run that gets to submit a batch and can create its log file ends
    normally with the summary written under the run's timestamp; the total
    it shows is the size of the batch when the store accepted it, and is
    left as it was (0 in a fresh process) when the store rejected it. *)
Theorem summary_after_upsert (w : Upload.world) (st : Upload.state)
    (batch : list value) :
  USpec.submitted w = Some batch →
  Upload.w_log_writable w = true →
  (Upload.main w st).1 = Ok tt ∧
  ∃ s, Upload.st_logs (Upload.main w st).2 !! Upload.log_path (Upload.w_timestamp w)
         = Some s ∧
       Upload.s_timestamp s = Upload.w_timestamp w ∧
       Upload.s_total_uploaded s =
         (if Upload.w_store_accepts w then Z.of_nat (length batch)
          else Upload.total_uploaded st) ∧
       Upload.total_uploaded (Upload.main w st).2 = Upload.s_total_uploaded s.
Proof.
  intros Hsub Hlog.
  destruct (main_submitted w st batch Hsub) as (st2 & -> & _ & _ & _ & Htotal).
  unfold Upload.write_log. rewrite Hlog. split; [done|].
  eexists. cbn [snd Upload.st_logs]. rewrite lookup_insert_eq. split; [done|].
  cbn [Upload.s_timestamp Upload.s_total_uploaded Upload.upsert Upload.total_uploaded].
  by rewrite Htotal.
Qed.

Lemma summary_after_upsert_witness :
  (Upload.main USample.folder_rejected (Upload.start [] [] ∅)).1 = Ok tt ∧
  ∃ s, Upload.st_logs (Upload.main USample.folder_rejected (Upload.start [] [] ∅)).2
         !! Upload.log_path (Upload.w_timestamp USample.folder_rejected) = Some s ∧
       Upload.s_timestamp s = Upload.w_timestamp USample.folder_rejected ∧
       Upload.s_total_uploaded s =
         (if Upload.w_store_accepts USample.folder_rejected
          then Z.of_nat (length (USpec.kept [USample.team 1; USample.team 3]))
          else Upload.total_uploaded (Upload.start [] [] ∅)) ∧
       Upload.total_uploaded
         (Upload.main USample.folder_rejected (Upload.start [] [] ∅)).2 =
       Upload.s_total_uploaded s.
Proof.
  apply (summary_after_upsert USample.folder_rejected (Upload.start [] [] ∅)
           (USpec.kept [USample.team 1; USample.team 3])); reflexivity.
Defined.

(** When the log file cannot be created, [main] ends with [OSError]
    after the upsert: the store keeps what it accepted, and no summary
    exists. *)
Theorem unwritable_log_after_upsert (w : Upload.world) (st : Upload.state)
    (batch : list value) :
  USpec.submitted w = Some batch →
  Upload.w_log_writable w = false →
  (Upload.main w st).1 = Raise OSError ∧
  Upload.st_logs (Upload.main w st).2 = Upload.st_logs st ∧
  Upload.st_batches (Upload.main w st).2 = Upload.st_batches st ++ [batch] ∧
  Upload.st_table (Upload.main w st).2 =
    (if Upload.w_store_accepts w then Upload.store_upsert batch (Upload.st_table st)
     else Upload.st_table st).
Proof.
  intros Hsub Hlog.
  destruct (main_submitted w st batch Hsub) as (st2 & -> & Ht & Hb & Hl & _).
  unfold Upload.write_log. rewrite Hlog. simpl. by rewrite Ht, Hb, Hl.
Qed.

Lemma unwritable_log_after_upsert_witness :
  (Upload.main USample.folder_no_log (Upload.start [] [] ∅)).1 = Raise OSError ∧
  Upload.st_logs (Upload.main USample.folder_no_log (Upload.start [] [] ∅)).2 =
    Upload.st_logs (Upload.start [] [] ∅) ∧
  Upload.st_batches (Upload.main USample.folder_no_log (Upload.start [] [] ∅)).2 =
    Upload.st_batches (Upload.start [] [] ∅) ++
    [USpec.kept [USample.team 1; USample.team 3]] ∧
  Upload.st_table (Upload.main USample.folder_no_log (Upload.start [] [] ∅)).2 =
    (if Upload.w_store_accepts USample.folder_no_log
     then Upload.store_upsert (USpec.kept [USample.team 1; USample.team 3])
            (Upload.st_table (Upload.start [] [] ∅))
     else Upload.st_table (Upload.start [] [] ∅)).
Proof.
  apply (unwritable_log_after_upsert USample.folder_no_log (Upload.start [] [] ∅)
           (USpec.kept [USample.team 1; USample.team 3])); reflexivity.
Defined.

(** Whenever the files yield no record at all, [main] returns normally
    without calling [write_log]: the files were entered in [skipped_files]
    and [empty_files], but no summary is written, nothing is submitted and
    the table is untouched. *)
Theorem no_record_no_summary (w : Upload.world) (st : Upload.state)
    (filenames : list string) :
  Upload.w_listdir w = Ok filenames →
  (Upload.read_all w filenames [] st).1 = Ok [] →
  Upload.main w st = (Ok tt, (Upload.read_all w filenames [] st).2) ∧
  USpec.same_outside st (Upload.main w st).2.
Proof.
  intros Hdir Hread. unfold Upload.main. rewrite Hdir.
  pose proof (read_all_outside w filenames [] st) as Hout.
  destruct (Upload.read_all w filenames [] st) as [[all_records|e] st1];
    simpl in Hread; [|done]. by injection Hread as ->.
Qed.

Lemma no_record_no_summary_witness :
  Upload.main USample.only_notes (Upload.start [] [] ∅) =
    (Ok tt, (Upload.read_all USample.only_notes ["notes.json"] []
               (Upload.start [] [] ∅)).2) ∧
  USpec.same_outside (Upload.start [] [] ∅)
    (Upload.main USample.only_notes (Upload.start [] [] ∅)).2.
Proof.
  apply (no_record_no_summary USample.only_notes (Upload.start [] [] ∅) ["notes.json"]);
    reflexivity.
Defined.
